(** * pgo: the build orchestration core

    A shallow embedding of [internal/builder] (the builder [Service]: [Build],
    [build], [appendEnv], [processSource], [ensureGo], [delegateBuildOrFail],
    [ensureDocker], [New]) and of the top-level [pgo.Build], followed by the
    properties the specification states about them.

    The Go code talks to many collaborators (the [afs] file service, [os],
    [os/exec], the remote builder client, docker, the [build] package).  They
    are gathered in one record of capabilities over an abstract world; every
    call to one of them is appended to a trace, so that "is never consulted",
    "no compile attempt" and "at most once" are statements about traces. *)

From Stdlib Require Import Strings.Ascii Strings.Byte.
From stdpp Require Import base strings list gmap.

Set Default Proof Using "Type".
Local Open Scope string_scope.

(** ** The parts of Go's standard library the code uses *)

Module gostd.

Definition bytes := list byte.

Definition nl : string := String (Ascii.ascii_of_nat 10) "".
Definition tab : string := String (Ascii.ascii_of_nat 9) "".

(** [path.Ext]: the suffix beginning at the final dot in the final
    slash-separated element of the path; empty when there is no dot.  The Go
    loop walks from the last byte down to the first slash. *)
Fixpoint extFrom (rpath : list ascii) (acc : string) : string :=
  match rpath with
  | [] => ""
  | c :: rest =>
      if Ascii.eqb c "/" then ""
      else if Ascii.eqb c "." then String c acc
      else extFrom rest (String c acc)
  end.

Definition Ext (path : string) : string :=
  extFrom (rev (String.list_ascii_of_string path)) "".

(** [bytes.Contains b sub]: [sub] occurs in [b] as a contiguous run. *)
Fixpoint HasPrefix (s p : bytes) : bool :=
  match p, s with
  | [], _ => true
  | _ :: _, [] => false
  | b :: p', c :: s' => Byte.eqb b c && HasPrefix s' p'
  end.

Fixpoint Contains (b sub : bytes) : bool :=
  HasPrefix b sub ||
  match b with
  | [] => false
  | _ :: b' => Contains b' sub
  end.

(** [fmt.Sprintf] restricted to what the code uses: the verbs [%v], [%s]
    and [%w] each consume the next operand, already rendered as text;
    [%%] is a literal percent sign.  A verb without operand prints Go's
    [%!v(MISSING)]; every call in the code has as many operands as verbs. *)
Fixpoint Sprintf (template : string) (args : list string) : string :=
  match template with
  | "" => ""
  | String "%" (String c rest) =>
      if Ascii.eqb c "%" then String "%" (Sprintf rest args)
      else match args with
           | a :: args' => a +:+ Sprintf rest args'
           | [] => "%!" +:+ String c "(MISSING)" +:+ Sprintf rest []
           end
  | String c rest => String c (Sprintf rest args)
  end.

(** [strings.Replace s old new n] for a non-empty [old] and [n >= 0]:
    the first [n] non-overlapping occurrences of [old] are replaced.
    [skip] counts the bytes of a matched occurrence still to be dropped. *)
Fixpoint replaceFrom (old new : string) (n skip : nat) (s : string) : string :=
  match s with
  | "" => ""
  | String c rest =>
      match skip with
      | S k => replaceFrom old new n k rest
      | O =>
          match n with
          | O => s
          | S n' =>
              if String.prefix old s
              then new +:+ replaceFrom old new n' (String.length old - 1) rest
              else String c (replaceFrom old new n 0 rest)
          end
      end
  end.

Definition Replace (s old new : string) (n : nat) : string :=
  replaceFrom old new n 0 s.

(** An [io.ReadCloser]: the bytes still to be read, the error the stream
    raises once they are consumed (none: plain end of file), and whether
    [Close] was called. *)
Record Reader := {
  pending : bytes;
  failure : option string;
  closed : bool;
}.

(** [io.ReadAll]: everything up to end of file or the first error, and the
    reader as it is left, drained. *)
Definition ReadAll (r : Reader) : bytes * option string * Reader :=
  (pending r, failure r,
   {| pending := []; failure := failure r; closed := closed r |}).

Definition Close (r : Reader) : Reader :=
  {| pending := pending r; failure := failure r; closed := true |}.

(** [io.NopCloser(bytes.NewReader(b))] *)
Definition NewReader (b : bytes) : Reader :=
  {| pending := b; failure := None; closed := false |}.

(** [os.FileInfo], as far as the code looks at it *)
Record FileInfo := {
  FileName : string;
  FileSize : Z;
  IsDir : bool;
}.

(** [%v] of a Go bool *)
Definition showBool (b : bool) : string := if b then "true" else "false".

End gostd.


(** ** Package [build]: the data the builder exchanges with its callers

    The declarations of this package are not part of the sources at hand; the
    records carry the fields the builder reads and writes. *)

Module build.
Import gostd.

(** A Go [error] value, by its message. *)
Definition error := string.

(** Target platform.  [buildSpec.Go.Runtime] and [buildSpec.Go.Version] are
    both read by the builder: [Runtime] is embedded in [GoBuild]. *)
Record Runtime := {
  Os : string;
  Arch : string;
  Version : string;
}.

Record GoBuild := {
  GoRuntime : Runtime;
  Env : gmap string string;
  EnsureTheSameOs : bool;
}.

Record Source := {
  Data : bytes;
  URL : string;
}.

Record Build := {
  Name : string;
  BuildSource : Source;
  Go : GoBuild;
}.

Record Info := {
  Scn : Z;
  InfoRuntime : Runtime;
  InfoName : string;
}.

(** The build result, Go's [build.Module]. *)
Record Module_ := {
  Mode : string;
  ModuleData : bytes;
  ModuleInfo : Info;
}.

(** [build.Option]: a hook mutating the spec in place. *)
Definition Option := Build -> Build.

(** [spec.Go.EnsureTheSameOs = v] *)
Definition setEnsureTheSameOs (v : bool) (spec : Build) : Build :=
  {| Name := Name spec;
     BuildSource := BuildSource spec;
     Go := {| GoRuntime := GoRuntime (Go spec);
              Env := Env (Go spec);
              EnsureTheSameOs := v |} |}.

(** [spec.Source = src] (what [Source.Pack] leaves behind) *)
Definition setSource (src : Source) (spec : Build) : Build :=
  {| Name := Name spec; BuildSource := src; Go := Go spec |}.

(** Modelled from the spec: [Runtime.ValidateOsAndArch] is declared in
    package [build], outside the sources at hand.  "Given the host's (OS,
    architecture) and the spec's requested runtime, returns success if they
    are equal; otherwise returns a mismatch error." *)
Definition ValidateOsAndArch (host requested : Runtime) : option error :=
  if decide (Os host = Os requested ∧ Arch host = Arch requested)
  then None
  else Some (Sprintf "runtime mismatch: host %v/%v, requested %v/%v"
               [Os host; Arch host; Os requested; Arch requested]).

End build.

(** ** Package [internal/builder] *)

Module builder.
Import gostd.

Abbreviation error := build.error.

(** A parsed module descriptor ([modfile.File]), by the module it declares
    and the dependencies it pins. *)
Record ModFile := {
  ModulePath : string;
  Require : list (string * string);
}.

(** Modelled from the spec: [Delegation] is declared outside the sources at
    hand.  "A named remote builder target with a runtime-matching predicate
    and a base network address." *)
Record Delegation := {
  DelegationName : string;
  Matches : build.Runtime -> bool;
  baseURL : string;
}.

Definition Delegations := list Delegation.

(** Modelled from the spec: [Delegations.Match] is declared outside the
    sources at hand.  "A registry of these is searched" for "an entry whose
    predicate matches the requested runtime"; no entry is Go's nil. *)
Definition Match (registry : Delegations) (rt : build.Runtime) : option Delegation :=
  list_find (fun d => Is_true (Matches d rt)) registry ≫= (fun hit => Some (snd hit)).

Record Config := {
  Runtime : build.Runtime;
  delegations : Delegations;
}.

(** The fields and methods of [Snapshot] the builder uses; the type itself
    is declared outside the sources at hand. *)
Record Snapshot := {
  Snapshot_buildMode : string;
  Spec : string;
  GoBuild : build.GoBuild;
  GoDir : string;
  PluginBuildPath : string;
  PluginDestPath : string;
  Created : Z;
  Mods : list ModFile;
  Mains : gset string;
}.

(** Modelled from the spec: [Snapshot.AppendMod]; the fragment is "appended
    to the snapshot's accumulated module list". *)
Definition AppendMod (fragment : ModFile) (s : Snapshot) : Snapshot :=
  {| Snapshot_buildMode := Snapshot_buildMode s; Spec := Spec s; GoBuild := GoBuild s;
     GoDir := GoDir s; PluginBuildPath := PluginBuildPath s;
     PluginDestPath := PluginDestPath s; Created := Created s;
     Mods := (Mods s ++ [fragment])%list; Mains := Mains s |}.

(** Modelled from the spec: [Snapshot.AppendMain]; "the file's path is
    recorded in the snapshot's entry-point set". *)
Definition AppendMain (loc : string) (s : Snapshot) : Snapshot :=
  {| Snapshot_buildMode := Snapshot_buildMode s; Spec := Spec s; GoBuild := GoBuild s;
     GoDir := GoDir s; PluginBuildPath := PluginBuildPath s;
     PluginDestPath := PluginDestPath s; Created := Created s;
     Mods := Mods s; Mains := Mains s ∪ {[ loc ]} |}.

Inductive BuildMode := Program | Plugin.

(** Modelled from the spec: how the entry-point set informs the build mode
    is decided in [Snapshot], outside the sources at hand.  "A workspace
    containing such a marker builds as a standalone program rather than a
    plugin unless plugin mode was explicitly requested"; "explicit mode
    wins over inference"; a bundle without entry point is a "library-style
    plugin". *)
Definition inferredMode (s : Snapshot) : BuildMode :=
  if decide (Snapshot_buildMode s = "plugin") then Plugin
  else if decide (Mains s = ∅) then Plugin
  else Program.

(** An [exec.Cmd] as [Service.build] fills it in: [Path] is the path
    [exec.Command] resolved the command name to, [Args] the arguments after
    the name. *)
Record Cmd := {
  Path : string;
  Args : list string;
  Dir : string;
  CmdEnv : list string;
}.

(** [Cmd.String]: the command line, for diagnostics -- the resolved path and
    the arguments, separated by spaces. *)
Definition Cmd_String (c : Cmd) : string :=
  foldl (fun acc a => acc +:+ " " +:+ a) (Path c) (Args c).

(** One file of a source bundle, as the unpacker meets it: its directory,
    its file info, its content stream and, for a module descriptor, the
    parsed fragment. *)
Record Entry := {
  parent : string;
  info : FileInfo;
  content : Reader;
  descriptor : option ModFile;
}.

(** *** Calls to collaborators *)

Inductive Event :=
| EvLogf (template : string) (args : list string)
| EvPack (src : build.Source)
| EvNewSnapshot (mode spec : string) (go : build.GoBuild)
| EvExists (URL : string)
| EvMkdirAll (path : string) (perm : N)
| EvCopy (srcURL destURL : string)
| EvOpenBundle (src : build.Source) (dest : string)
| EvReplaceDependencies (source : bytes)
| EvStage (dest parent : string) (info : FileInfo) (reader : Reader)
| EvCommand (cmd : Cmd)
| EvDownload (URL : string)
| EvMatch (rt : build.Runtime)
| EvIsUp (address : string)
| EvRunDocker (delegation : Delegation) (spec : build.Build)
| EvClientBuild (address : string) (spec : build.Build)
| EvStore (plugin : option build.Module_) (destURL : string).

(** The world outside the process ([world]) and the calls made so far, oldest
    first. *)
Record State (W : Type) := {
  world : W;
  trace : list Event;
}.
Arguments world {W} _.
Arguments trace {W} _.

Definition M (W A : Type) : Type := State W -> A * State W.

Definition ret {W A} (a : A) : M W A := fun st => (a, st).

Definition bind {W A B} (m : M W A) (k : A -> M W B) : M W B :=
  fun st => let '(a, st') := m st in k a st'.

Definition emit {W} (e : Event) : M W unit :=
  fun st => (tt, {| world := world st; trace := (trace st ++ [e])%list |}).

(** a call that only observes the world *)
Definition ask {W A} (f : W -> A) : M W A :=
  fun st => (f (world st), st).

(** a call that may change the world *)
Definition act {W A} (f : W -> A * W) : M W A :=
  fun st => let '(a, w) := f (world st) in
            (a, {| world := w; trace := trace st |}).

(** running from a fresh trace *)
Definition run {W A} (m : M W A) (w : W) : A * State W :=
  m {| world := w; trace := [] |}.

Notation "'let*' x := m 'in' k" := (bind m (fun x => k))
  (at level 10, x name, m at level 100, k at level 200, only parsing).
Notation "'let*' ' pat := m 'in' k" := (bind m (fun x => match x with pat => k end))
  (at level 10, pat pattern, m at level 100, k at level 200, only parsing).

(** *** The capabilities the core calls and never implements

    Methods of the [build] package and of [Snapshot], the remote client,
    docker, [afs], [os], [os/exec] and [path].  A method [T.m] is the field
    [T_m].  Calls that reach outside the process take the world, and return
    the new one when they can change it.  [runDocker] and the remote
    [Build] receive the spec for reading. *)
Record Collaborators (W : Type) := {
  (* package build *)
  Build_Init : build.Build -> build.Build;
  Build_Validate : build.Build -> option error;
  Build_GetModeWithSpec : build.Build -> string * string;
  Source_Pack : W -> build.Source -> build.Source * option error * W;
  (* the archive codec behind [Source.Unpack]: the files of a bundle (and
     whether it is broken), and the staging of one file under a destination *)
  Source_entries : W -> build.Source -> list Entry * option error;
  Source_stage : W -> string -> string -> FileInfo -> Reader -> option error * W;
  Runtime_Init : build.Runtime -> build.Runtime;
  AsScn : Z -> Z;
  (* package builder *)
  NewSnapshot : W -> string -> string -> build.GoBuild -> Snapshot;
  Snapshot_BasePluginURL : Snapshot -> string;
  Snapshot_replaceDependencies : Snapshot -> bytes -> bytes * option error;
  Snapshot_buildCmdArgs : Snapshot -> build.Build -> string * list string;
  Snapshot_Env : Snapshot -> list string;
  Service_runDocker : W -> Delegation -> build.Build -> option error * W;
  Client_IsUp : W -> string -> bool;
  Client_Build : W -> string -> build.Build ->
                 option build.Module_ * option error * W;
  defaultDirPermission : N;
  (* afs, os, os/exec, path, the Go runtime *)
  fs_Exists : W -> string -> bool * option error;
  fs_Copy : W -> string -> string -> option error * W;
  fs_DownloadWithURL : W -> string -> bytes * option error;
  os_MkdirAll : W -> string -> N -> option error * W;
  exec_CombinedOutput : W -> Cmd -> bytes * option error * W;
  (* what [exec.Command] puts in [Cmd.Path]: a bare name is resolved through
     PATH, a name with a separator (or one that does not resolve) is kept *)
  exec_LookPath : W -> string -> string;
  path_Join : list string -> string;
  (* the order in which [range] visits a map: unspecified in Go *)
  map_range : gmap string string -> list (string * string);
}.

(** [Service]: the [fs] field is the [afs] part of the capabilities, and
    [logger] is never read. *)
Record Service := {
  cfg : Config;
}.

(** [builder.Option]: a hook mutating the configuration in place. *)
Definition Option := Config -> Config.

Definition mainFragment : bytes := String.list_byte_of_string "package main".

Definition goDownloadURL : string := "https://dl.google.com/go/go%v.%v-%v.tar.gz".

Section Service.
Context {W : Type} (X : Collaborators W).

(** [buildSpec.Logf]: the logging sink of the spec. *)
Definition Logf (spec : build.Build) (template : string) (args : list string)
  : M W unit :=
  emit (EvLogf template args).

(** Modelled from the spec: [Source.Unpack] belongs to package [build]
    and the archive codec, outside the sources at hand.  It "drives
    unpacking of the source bundle into the build directory, invoking two
    callbacks per encountered file": the descriptor callback for a module
    descriptor, then the per-file callback, whose file info and reader are
    what is staged under the destination.  A callback error stops the
    walk. *)
Definition unpackEntry (dest : string)
    (onMod : ModFile -> Snapshot -> Snapshot)
    (onFile : string -> FileInfo -> Reader -> Snapshot ->
              M W (Snapshot * (FileInfo * Reader * option error)))
    (e : Entry) (snapshot : Snapshot) : M W (Snapshot * option error) :=
  let snapshot :=
    match descriptor e with
    | Some fragment => onMod fragment snapshot
    | None => snapshot
    end in
  let* '(snapshot, (info', reader', err)) := onFile (parent e) (info e) (content e) snapshot in
  match err with
  | Some err => ret (snapshot, Some err)
  | None =>
      let* _ := emit (EvStage dest (parent e) info' reader') in
      let* err := act (fun w => Source_stage _ X w dest (parent e) info' reader') in
      ret (snapshot, err)
  end.

(** Modelled from the spec: the walk of [Source.Unpack] over the files of the
    bundle, in order, stopping at the first error. *)
Fixpoint unpackEntries (dest : string)
    (onMod : ModFile -> Snapshot -> Snapshot)
    (onFile : string -> FileInfo -> Reader -> Snapshot ->
              M W (Snapshot * (FileInfo * Reader * option error)))
    (entries : list Entry) (snapshot : Snapshot) : M W (Snapshot * option error) :=
  match entries with
  | [] => ret (snapshot, None)
  | e :: rest =>
      let* '(snapshot, err) := unpackEntry dest onMod onFile e snapshot in
      match err with
      | Some err => ret (snapshot, Some err)
      | None => unpackEntries dest onMod onFile rest snapshot
      end
  end.

(** Modelled from the spec: [Source.Unpack], "unpack(bytes, destination,
    onDescriptor, onFile) -> error": the bundle is opened, its files walked,
    and a bundle that turns out broken is reported after the files read from
    it. *)
Definition Source_Unpack (source : build.Source) (dest : string)
    (onMod : ModFile -> Snapshot -> Snapshot)
    (onFile : string -> FileInfo -> Reader -> Snapshot ->
              M W (Snapshot * (FileInfo * Reader * option error)))
    (snapshot : Snapshot) : M W (Snapshot * option error) :=
  let* _ := emit (EvOpenBundle source dest) in
  let* '(entries, broken) := ask (fun w => Source_entries _ X w source) in
  let* '(snapshot, err) := unpackEntries dest onMod onFile entries snapshot in
  match err with
  | Some err => ret (snapshot, Some err)
  | None => ret (snapshot, broken)
  end.

(** lines 100-107 *)
Definition appendEnv (pairs : gmap string string) (env : list string) : list string :=
  if decide (0 < size pairs)
  then foldl (fun env kv => (env ++ [Sprintf "%v=%v" [kv.1; kv.2]])%list)
             env (map_range _ X pairs)
  else env.

(** lines 85-98 *)
Definition build (snapshot : Snapshot) (buildSpec : build.Build) : M W (option error) :=
  let '(cmd, args) := Snapshot_buildCmdArgs _ X snapshot buildSpec in
  let* resolved := ask (fun w => exec_LookPath _ X w cmd) in
  let command :=
    {| Path := resolved; Args := args;
       Dir := PluginBuildPath snapshot;
       CmdEnv := appendEnv (build.Env (build.Go buildSpec)) (Snapshot_Env _ X snapshot) |} in
  let* _ := Logf buildSpec "building plugin at %v: %v" [Dir command; Cmd_String command] in
  let* _ := emit (EvCommand command) in
  let* '(output, err) := act (fun w => exec_CombinedOutput _ X w command) in
  match err with
  | Some err =>
      let template :=
        "couldn't generate plugin due to the: %w at: %s" +:+ nl +:+ tab +:+
        "stdin: %s" +:+ nl +:+ tab +:+ "stdount: %s" in
      let operands :=
        [err; Dir command; Cmd_String command; String.string_of_list_byte output] in
      let* _ := Logf buildSpec template operands in
      ret (Some (Sprintf template operands))
  | None => ret None
  end.

(** lines 111-127 *)
Definition processSource (reader : Reader) (parent : string) (info : FileInfo)
    (snapshot : Snapshot) (replace : bool)
  : M W (Snapshot * (FileInfo * Reader * option error)) :=
  let '(source, err, reader) := ReadAll reader in
  match err with
  | Some err => ret (snapshot, (info, reader, Some err))
  | None =>
      let reader := Close reader in
      let* '(source, err) :=
        (if replace
         then let* _ := emit (EvReplaceDependencies source) in
              ret (Snapshot_replaceDependencies _ X snapshot source)
         else ret (source, None)) in
      match err with
      | Some err => ret (snapshot, (info, reader, Some err))
      | None =>
          let snapshot :=
            if Contains source mainFragment
            then AppendMain (path_Join _ X [parent; FileName info]) snapshot
            else snapshot in
          ret (snapshot, (info, NewReader source, None))
      end
  end.

(** lines 131-149 *)
Definition ensureGo (s : Service) (snapshot : Snapshot) (version : string)
    (logf : string -> list string -> M W unit) : M W (option error) :=
  let verLocation := path_Join _ X [GoDir snapshot; "go" +:+ version] in
  let* _ := emit (EvExists (path_Join _ X [verLocation; "go"])) in
  let* '(ok, _) := ask (fun w => fs_Exists _ X w (path_Join _ X [verLocation; "go"])) in
  let* _ := logf ("checking binary[%v]: %v" +:+ nl) [showBool ok; verLocation] in
  if ok : bool then ret None
  else
    let* _ := emit (EvMkdirAll verLocation (defaultDirPermission _ X)) in
    let* err := act (fun w => os_MkdirAll _ X w verLocation (defaultDirPermission _ X)) in
    match err with
    | Some err => ret (Some (Sprintf "failed to crate %v %v" [verLocation; err]))
    | None =>
        let URL := Sprintf goDownloadURL
                     [version; build.Os (Runtime (cfg s)); build.Arch (Runtime (cfg s))] in
        let URL := Replace URL "://" ":" 1 +:+ "/tar://" in
        let* _ := logf ("installing go %v %v %v" +:+ nl)
                    [version; build.Os (Runtime (cfg s)); build.Arch (Runtime (cfg s))] in
        let* _ := emit (EvCopy URL verLocation) in
        let* err := act (fun w => fs_Copy _ X w URL verLocation) in
        let* _ := match err with
                  | Some e => logf ("failed to install go %v" +:+ nl) [e]
                  | None => ret tt
                  end in
        ret err
    end.

(** lines 164-171 *)
Definition ensureDocker (s : Service) (delegation : Delegation) (spec : build.Build)
  : M W (option error) :=
  let* _ := emit (EvIsUp (baseURL delegation)) in
  let* up := ask (fun w => Client_IsUp _ X w (baseURL delegation)) in
  if up : bool
  then let* _ := Logf spec ("%v is up" +:+ nl) [DelegationName delegation] in ret None
  else let* _ := emit (EvRunDocker delegation spec) in
       act (fun w => Service_runDocker _ X w delegation spec).

(** lines 151-162.  The spec is a pointer: the result carries the spec as
    the call leaves it. *)
Definition delegateBuildOrFail (s : Service) (spec : build.Build) (err : option error)
  : M W (build.Build * (option build.Module_ * option error)) :=
  let spec := build.setEnsureTheSameOs false spec in
  let* _ := emit (EvMatch (build.GoRuntime (build.Go spec))) in
  match Match (delegations (cfg s)) (build.GoRuntime (build.Go spec)) with
  | None => ret (spec, (None, err))
  | Some delegation =>
      let* err := ensureDocker s delegation spec in
      match err with
      | Some err => ret (spec, (None, Some err))
      | None =>
          let* _ := emit (EvClientBuild (baseURL delegation) spec) in
          let* '(plugin, err) := act (fun w => Client_Build _ X w (baseURL delegation) spec) in
          ret (spec, (plugin, err))
      end
  end.

(** The per-file closure handed to [Unpack], lines 52-59; [buildMode] and
    [snapshot] are the variables it captures. *)
Definition onFile (s : Service) (buildMode : string)
    (parent : string) (info : FileInfo) (reader : Reader) (snapshot : Snapshot)
  : M W (Snapshot * (FileInfo * Reader * option error)) :=
  let ext := Ext (FileName info) in
  if bool_decide (ext ∈ [".go"; ".mod"; ".sum"])
  then processSource reader parent info snapshot (bool_decide (buildMode = "plugin"))
  else ret (snapshot, (info, reader, None)).

(** lines 25-83 *)
Definition Build (s : Service) (buildSpec : build.Build) (opts : list build.Option)
  : M W (build.Build * (option build.Module_ * option error)) :=
  let buildSpec := foldl (fun spec opt => opt spec) buildSpec opts in
  let buildSpec := Build_Init _ X buildSpec in
  match Build_Validate _ X buildSpec with
  | Some err => ret (buildSpec, (None, Some err))
  | None =>
  let err := build.ValidateOsAndArch (Runtime (cfg s)) (build.GoRuntime (build.Go buildSpec)) in
  if bool_decide (err ≠ None) || build.EnsureTheSameOs (build.Go buildSpec)
  then delegateBuildOrFail s buildSpec err
  else
  let* '(buildSpec, err) :=
    (if decide (length (build.Data (build.BuildSource buildSpec)) = 0)
     then let* _ := emit (EvPack (build.BuildSource buildSpec)) in
          let* '(packed, err) := act (fun w => Source_Pack _ X w (build.BuildSource buildSpec)) in
          ret (build.setSource packed buildSpec, err)
     else ret (buildSpec, None)) in
  match err with
  | Some err => ret (buildSpec, (None, Some err))
  | None =>
  let '(buildMode, spec) := Build_GetModeWithSpec _ X buildSpec in
  let* _ := emit (EvNewSnapshot buildMode spec (build.Go buildSpec)) in
  let* snapshot := ask (fun w => NewSnapshot _ X w buildMode spec (build.Go buildSpec)) in
  let* err := ensureGo s snapshot (build.Version (build.GoRuntime (build.Go buildSpec)))
                (Logf buildSpec) in
  match err with
  | Some err => ret (buildSpec, (None, Some err))
  | None =>
  let* '(snapshot, err) :=
    Source_Unpack (build.BuildSource buildSpec) (Snapshot_BasePluginURL _ X snapshot)
      AppendMod (onFile s buildMode) snapshot in
  match err with
  | Some err => ret (buildSpec, (None, Some err))
  | None =>
  let* err := build snapshot buildSpec in
  match err with
  | Some err => ret (buildSpec, (None, Some err))
  | None =>
  let* _ := emit (EvDownload (PluginDestPath snapshot)) in
  let* '(data, err) := ask (fun w => fs_DownloadWithURL _ X w (PluginDestPath snapshot)) in
  match err with
  | Some err => ret (buildSpec, (None, Some (Sprintf "failed to locate plugin: %v" [err])))
  | None =>
      let res :=
        {| build.Mode := Snapshot_buildMode snapshot;
           build.ModuleData := data;
           build.ModuleInfo :=
             {| build.Scn := AsScn _ X (Created snapshot);
                build.InfoRuntime := build.GoRuntime (build.Go buildSpec);
                build.InfoName := build.Name buildSpec |} |} in
      ret (buildSpec, (Some res, None))
  end end end end end end.

(** lines 174-180 *)
Definition New (cfg : Config) (opts : list Option) : Service :=
  let cfg := {| Runtime := Runtime_Init _ X (Runtime cfg);
                delegations := delegations cfg |} in
  let cfg := foldl (fun cfg opt => opt cfg) cfg opts in
  {| cfg := cfg |}.

End Service.

End builder.

(** ** Package [pgo]: the command-line entry point, [plugin.go] *)

Module pgo.
Import gostd builder.

(** [Options] of the command line; declared outside the sources at hand. *)
Record Options := {
  SourceURL : string;
  DestURL : string;
  Name : string;
  Os : string;
  Arch : string;
  Version : string;
}.

Record Collaborators (W : Type) := {
  Options_Init : Options -> Options;
  Options_Validate : Options -> option error;
  Options_buildSpec : Options -> build.Build;
  WithLinuxAmd64 : builder.Option;
  (* the receiver may be nil *)
  Module_Store : W -> option build.Module_ -> string -> option error * W;
}.

Section Build.
Context {W : Type} (X : builder.Collaborators W) (P : Collaborators W).

(** lines 11-24; [option'] is Go's [option] *)
Definition Build (option' : Options) (opts : list build.Option) : M W (option error) :=
  let option' := Options_Init _ P option' in
  match Options_Validate _ P option' with
  | Some err => ret (Some err)
  | None =>
      let aBuilder :=
        builder.New X
          {| Runtime := {| build.Os := ""; build.Arch := ""; build.Version := "" |};
             delegations := [] |}
          [WithLinuxAmd64 _ P] in
      let spec := Options_buildSpec _ P option' in
      let* '(_, (plugin, err)) := builder.Build X aBuilder spec opts in
      match err with
      | Some err => ret (Some err)
      | None =>
          let* _ := emit (EvStore plugin (DestURL option')) in
          act (fun w => Module_Store _ P w plugin (DestURL option'))
      end
  end.

End Build.

End pgo.

(** ** A small concrete world

    One host with a set of existing paths and a network that is up or down;
    the collaborators behave as simply as their contracts allow.  It serves to
    run the embedding on concrete inputs. *)

Module Demo.
Import gostd builder.

Record world := {
  files : list string;
  online : bool;
}.

(** a plain [path.Join]: empty elements are ignored, the rest joined by
    slashes *)
Definition join (elems : list string) : string :=
  match filter (fun e => e ≠ "") elems with
  | [] => ""
  | e :: rest => foldl (fun acc x => acc +:+ "/" +:+ x) e rest
  end.

Definition addFile (p : string) (w : world) : world :=
  {| files := p :: files w; online := online w |}.

Definition mainGo : bytes :=
  String.list_byte_of_string "package main; func main() {}".

Definition readme : bytes := String.list_byte_of_string "a plugin".

Definition bundle : list Entry :=
  [ {| parent := "cmd"; info := {| FileName := "main.go"; FileSize := 28; IsDir := false |};
       content := NewReader mainGo; descriptor := None |};
    {| parent := ""; info := {| FileName := "README.md"; FileSize := 8; IsDir := false |};
       content := NewReader readme; descriptor := None |} ].

Definition artifact : bytes := String.list_byte_of_string "ELF".

Definition remoteModule (spec : build.Build) : build.Module_ :=
  {| build.Mode := "plugin"; build.ModuleData := artifact;
     build.ModuleInfo := {| build.Scn := 1;
                            build.InfoRuntime := build.GoRuntime (build.Go spec);
                            build.InfoName := build.Name spec |} |}.

Definition X : Collaborators world :=
  {| Build_Init := fun spec => spec;
     Build_Validate := fun spec =>
       if decide (build.Name spec = "") then Some "name was empty" else None;
     Build_GetModeWithSpec := fun spec => ("plugin", "");
     Source_Pack := fun w src =>
       ({| build.Data := String.list_byte_of_string "zip"; build.URL := build.URL src |},
        None, w);
     Source_entries := fun w src => (bundle, None);
     Source_stage := fun w dest parent info reader =>
       (None, addFile (join [dest; parent; FileName info]) w);
     Runtime_Init := fun rt => rt;
     AsScn := fun created => created;
     NewSnapshot := fun w mode spec go =>
       {| Snapshot_buildMode := mode; Spec := spec; GoBuild := go;
          GoDir := "/opt/go"; PluginBuildPath := "/tmp/plugin";
          PluginDestPath := "/tmp/plugin/main.so"; Created := 7;
          Mods := []; Mains := ∅ |};
     Snapshot_BasePluginURL := fun s => PluginBuildPath s;
     Snapshot_replaceDependencies := fun s source => (source, None);
     Snapshot_buildCmdArgs := fun s spec => ("go", ["build"; "-buildmode=plugin"]);
     Snapshot_Env := fun s => ["GOROOT=/opt/go"; "GO111MODULE=on"];
     Service_runDocker := fun w d spec =>
       if online w then (None, w) else (Some "docker is not running", w);
     Client_IsUp := fun w address => online w;
     Client_Build := fun w address spec => (Some (remoteModule spec), None, w);
     defaultDirPermission := 484%N;
     fs_Exists := fun w p => (bool_decide (p ∈ files w), None);
     fs_Copy := fun w srcURL destURL =>
       if online w then (None, addFile (join [destURL; "go"]) w)
       else (Some "network is unreachable", w);
     fs_DownloadWithURL := fun w p =>
       if bool_decide (p ∈ files w) then (artifact, None) else ([], Some "not found");
     os_MkdirAll := fun w p perm =>
       (None, if bool_decide (p ∈ files w) then w else addFile p w);
     exec_CombinedOutput := fun w cmd => ([], None, addFile (join [Dir cmd; "main.so"]) w);
     exec_LookPath := fun w name =>
       if decide (name = "go") then "/usr/local/go/bin/go" else name;
     path_Join := join;
     map_range := map_to_list |}.

Definition P : pgo.Collaborators world :=
  {| pgo.Options_Init := fun o => o;
     pgo.Options_Validate := fun o =>
       if decide (pgo.SourceURL o = "") then Some "source was empty" else None;
     pgo.Options_buildSpec := fun o =>
       {| build.Name := pgo.Name o;
          build.BuildSource := {| build.Data := []; build.URL := pgo.SourceURL o |};
          build.Go := {| build.GoRuntime := {| build.Os := pgo.Os o; build.Arch := pgo.Arch o;
                                               build.Version := pgo.Version o |};
                         build.Env := ∅;
                         build.EnsureTheSameOs := false |} |};
     pgo.WithLinuxAmd64 := fun cfg =>
       {| Runtime := {| build.Os := "linux"; build.Arch := "amd64";
                        build.Version := build.Version (Runtime cfg) |};
          delegations := delegations cfg |};
     pgo.Module_Store := fun w plugin dest => (None, addFile dest w) |}.

Definition linuxAmd64 : build.Runtime :=
  {| build.Os := "linux"; build.Arch := "amd64"; build.Version := "1.17" |}.

Definition darwinArm64 : build.Runtime :=
  {| build.Os := "darwin"; build.Arch := "arm64"; build.Version := "1.17" |}.

(** a builder on linux/amd64 without delegations *)
Definition service : Service :=
  {| cfg := {| Runtime := linuxAmd64; delegations := [] |} |}.

(** a delegation for darwin targets *)
Definition macBuilder : Delegation :=
  {| DelegationName := "mac";
     Matches := fun rt => bool_decide (build.Os rt = "darwin");
     baseURL := "http://mac.local:8089" |}.

Definition serviceWithMac : Service :=
  {| cfg := {| Runtime := linuxAmd64; delegations := [macBuilder] |} |}.

Definition spec (rt : build.Runtime) (force : bool) : build.Build :=
  {| build.Name := "fee";
     build.BuildSource := {| build.Data := []; build.URL := "/src/fee" |};
     build.Go := {| build.GoRuntime := rt;
                    build.Env := {[ "GOFLAGS" := "-mod=mod" ]};
                    build.EnsureTheSameOs := force |} |}.

Definition windowsAmd64 : build.Runtime :=
  {| build.Os := "windows"; build.Arch := "amd64"; build.Version := "1.17" |}.

(** a spec without a name: it fails validation *)
Definition unnamed : build.Build :=
  {| build.Name := "";
     build.BuildSource := {| build.Data := []; build.URL := "/src/fee" |};
     build.Go := {| build.GoRuntime := linuxAmd64; build.Env := ∅;
                    build.EnsureTheSameOs := false |} |}.

Definition options : pgo.Options :=
  {| pgo.SourceURL := "/src/fee"; pgo.DestURL := "/out/fee.so"; pgo.Name := "fee";
     pgo.Os := "linux"; pgo.Arch := "amd64"; pgo.Version := "1.17" |}.

(** the workspace of a build on this host *)
Definition snapshot : Snapshot :=
  {| Snapshot_buildMode := "plugin"; Spec := ""; GoBuild := build.Go (spec linuxAmd64 false);
     GoDir := "/opt/go"; PluginBuildPath := "/tmp/plugin";
     PluginDestPath := "/tmp/plugin/main.so"; Created := 7;
     Mods := []; Mains := ∅ |}.

Definition mainEntry : Entry :=
  {| parent := "cmd"; info := {| FileName := "main.go"; FileSize := 28; IsDir := false |};
     content := NewReader mainGo; descriptor := None |}.

Definition readmeEntry : Entry :=
  {| parent := ""; info := {| FileName := "README.md"; FileSize := 8; IsDir := false |};
     content := NewReader readme; descriptor := None |}.

Definition fresh : world := {| files := []; online := true |}.
Definition offline : world := {| files := []; online := false |}.

End Demo.

(** ** Vocabulary of the properties *)

Module props.
Import gostd builder.

(** the spec as the decision point of [Build] sees it: after the option
    hooks and [Init] *)
Definition initialised {W} (X : Collaborators W) (buildSpec : build.Build)
    (opts : list build.Option) : build.Build :=
  Build_Init _ X (foldl (fun spec opt => opt spec) buildSpec opts).

(** the requested (OS, architecture) equals the host's *)
Definition sameRuntime (host requested : build.Runtime) : Prop :=
  build.Os host = build.Os requested ∧ build.Arch host = build.Arch requested.

(** calls of the delegation path *)
Definition delegationCall (e : Event) : bool :=
  match e with
  | EvMatch _ | EvIsUp _ | EvRunDocker _ _ | EvClientBuild _ _ => true
  | _ => false
  end.

Definition notDelegation (e : Event) : Prop := delegationCall e = false.

(** calls of the local build path: packing, snapshot, toolchain, staging,
    compiler, artifact retrieval *)
Definition localCall (e : Event) : bool :=
  match e with
  | EvPack _ | EvNewSnapshot _ _ _ | EvExists _ | EvMkdirAll _ _ | EvCopy _ _
  | EvOpenBundle _ _ | EvReplaceDependencies _ | EvStage _ _ _ _
  | EvCommand _ | EvDownload _ => true
  | _ => false
  end.

(** where the local build path starts: packing, or the snapshot when the
    bundle is already packed *)
Definition localStart (e : Event) : bool :=
  match e with
  | EvPack _ | EvNewSnapshot _ _ _ => true
  | _ => false
  end.

(** every spec handed to docker bring-up or sent to the remote endpoint has
    the forced-delegation flag cleared *)
Definition flagCleared (e : Event) : Prop :=
  match e with
  | EvRunDocker _ spec | EvClientBuild _ spec =>
      build.EnsureTheSameOs (build.Go spec) = false
  | _ => True
  end.

(** source, descriptor and checksum files, by extension (line 55) *)
Definition sourceExt (name : string) : Prop :=
  Ext name ∈ [".go"; ".mod"; ".sum"].

(** the install steps of the toolchain manager *)
Definition isMkdirAll (e : Event) : bool :=
  match e with EvMkdirAll _ _ => true | _ => false end.

Definition isCopy (e : Event) : bool :=
  match e with EvCopy _ _ => true | _ => false end.

Definition count (p : Event -> bool) (tr : list Event) : nat :=
  length (List.filter p tr).

(** every call a computation makes satisfies [P] *)
Definition emits {W A} (P : Event -> Prop) (m : M W A) : Prop :=
  ∀ st, ∃ evs, trace (m st).2 = (trace st ++ evs)%list ∧ Forall P evs.

(** two calls of [ensureGo] in sequence *)
Definition ensureGoTwice {W} (X : Collaborators W) (s : Service) (snapshot : Snapshot)
    (spec : build.Build) : M W (option error * option error) :=
  let* first := ensureGo X s snapshot (build.Version (build.GoRuntime (build.Go spec)))
                  (Logf spec) in
  let* second := ensureGo X s snapshot (build.Version (build.GoRuntime (build.Go spec)))
                   (Logf spec) in
  ret (first, second).

(** "calling it twice in sequence performs the directory-creation and
    fetch-extract step at most once" *)
Definition installsAtMostOnce {W} (X : Collaborators W) (s : Service)
    (snapshot : Snapshot) (spec : build.Build) (w : W) : Prop :=
  let tr := trace (run (ensureGoTwice X s snapshot spec) w).2 in
  (count isMkdirAll tr ≤ 1)%nat ∧ (count isCopy tr ≤ 1)%nat.

(** How [os/exec] reads an environment list: an entry is [key=value], split
    at its first equals sign, and "if Env contains duplicate environment
    keys, only the last value in the slice for each duplicate key is
    used". *)
Fixpoint splitEntry (e : string) : option (string * string) :=
  match e with
  | "" => None
  | String c rest =>
      if Ascii.eqb c "=" then Some ("", rest)
      else match splitEntry rest with
           | Some (k, v) => Some (String c k, v)
           | None => None
           end
  end.

Fixpoint lookupEnv (env : list string) (key : string) : option string :=
  match env with
  | [] => None
  | e :: rest =>
      match lookupEnv rest key with
      | Some v => Some v
      | None =>
          match splitEntry e with
          | Some (k, v) => if decide (k = key) then Some v else None
          | None => None
          end
      end
  end.

(** the environment entry of a pair *)
Definition entry (kv : string * string) : string := kv.1 +:+ "=" +:+ kv.2.

(** a variable name holds no equals sign *)
Fixpoint wellFormedKey (k : string) : bool :=
  match k with
  | "" => true
  | String c rest => negb (Ascii.eqb c "=") && wellFormedKey rest
  end.

End props.

(** ** Vocabulary of the further properties *)

Module more.
Import gostd builder props.

(** what a computation returns satisfies [Q], from every state *)
Definition returns {W A} (Q : A -> Prop) (m : M W A) : Prop :=
  ∀ st, Q (m st).1.

(** a computation makes at most [n] calls of the kind [p] *)
Definition atMost {W A} (p : Event -> bool) (n : nat) (m : M W A) : Prop :=
  ∀ st, ∃ evs, trace (m st).2 = (trace st ++ evs)%list ∧ (count p evs ≤ n)%nat.

Definition isPack (e : Event) : bool :=
  match e with EvPack _ => true | _ => false end.

Definition isNewSnapshot (e : Event) : bool :=
  match e with EvNewSnapshot _ _ _ => true | _ => false end.

Definition isCommand (e : Event) : bool :=
  match e with EvCommand _ => true | _ => false end.

Definition isDownload (e : Event) : bool :=
  match e with EvDownload _ => true | _ => false end.

Definition isMatch (e : Event) : bool :=
  match e with EvMatch _ => true | _ => false end.

Definition isIsUp (e : Event) : bool :=
  match e with EvIsUp _ => true | _ => false end.

Definition isRunDocker (e : Event) : bool :=
  match e with EvRunDocker _ _ => true | _ => false end.

Definition isClientBuild (e : Event) : bool :=
  match e with EvClientBuild _ _ => true | _ => false end.

Definition isStore (e : Event) : bool :=
  match e with EvStore _ _ => true | _ => false end.

(** the calls [ensureGo] may make *)
Definition toolchainCall (e : Event) : bool :=
  match e with
  | EvExists _ | EvMkdirAll _ _ | EvCopy _ _ | EvLogf _ _ => true
  | _ => false
  end.

(** the calls unpacking may make *)
Definition unpackCall (e : Event) : bool :=
  match e with
  | EvOpenBundle _ _ | EvReplaceDependencies _ | EvStage _ _ _ _ => true
  | _ => false
  end.

(** the calls [Service.build] may make *)
Definition compileCall (e : Event) : bool :=
  match e with
  | EvLogf _ _ | EvCommand _ => true
  | _ => false
  end.

(** the calls of the local path after packing *)
Definition stagedCall (e : Event) : bool :=
  isNewSnapshot e || toolchainCall e || unpackCall e || compileCall e || isDownload e.

(** the calls a computation makes, taken together, satisfy [S] *)
Definition segment {W A} (S : list Event -> Prop) (m : M W A) : Prop :=
  ∀ st, ∃ evs, trace (m st).2 = (trace st ++ evs)%list ∧ S evs.

(** a trace that splits into consecutive segments, one per stage *)
Fixpoint phased (Ss : list (list Event -> Prop)) (tr : list Event) : Prop :=
  match Ss with
  | [] => tr = []
  | stage :: rest => ∃ now later, tr = (now ++ later)%list ∧ stage now ∧ phased rest later
  end.

Definition phases {W A} (Ss : list (list Event -> Prop)) (m : M W A) : Prop :=
  segment (phased Ss) m.

(** the stages of a local build: what each may call, and how often *)
Definition packSeg (src : build.Source) (evs : list Event) : Prop :=
  evs = [] ∨ evs = [EvPack src].

Definition snapshotSeg (evs : list Event) : Prop :=
  evs = [] ∨ ∃ mode spec go, evs = [EvNewSnapshot mode spec go].

Definition toolchainSeg (evs : list Event) : Prop :=
  Forall (fun e => toolchainCall e = true) evs
  ∧ (count isMkdirAll evs ≤ 1)%nat ∧ (count isCopy evs ≤ 1)%nat.

Definition unpackSeg (evs : list Event) : Prop :=
  Forall (fun e => unpackCall e = true) evs.

Definition compileSeg (evs : list Event) : Prop :=
  Forall (fun e => compileCall e = true) evs ∧ (count isCommand evs ≤ 1)%nat.

Definition downloadSeg (evs : list Event) : Prop :=
  evs = [] ∨ ∃ URL, evs = [EvDownload URL].

Definition localStages (src : build.Source) : list (list Event -> Prop) :=
  [packSeg src; snapshotSeg; toolchainSeg; unpackSeg; compileSeg; downloadSeg].

(** what a computation returns and the calls it makes are related by [Q] *)
Definition yields {W A} (Q : A -> list Event -> Prop) (m : M W A) : Prop :=
  ∀ st, ∃ evs, trace (m st).2 = (trace st ++ evs)%list ∧ Q (m st).1 evs.

(** [c] compiler runs and [d] artifact downloads *)
Definition tally (c d : nat) (evs : list Event) : Prop :=
  count isCommand evs = c ∧ count isDownload evs = d.

(** the address [ensureGo] fetches a toolchain from *)
Definition downloadURL (version os arch : string) : string :=
  "https:dl.google.com/go/go" +:+ version +:+ "." +:+ os +:+ "-" +:+ arch
  +:+ ".tar.gz/tar://".

(** a string without dot and without slash *)
Fixpoint plain (s : string) : bool :=
  match s with
  | "" => true
  | String c rest => negb (Ascii.eqb c ".") && negb (Ascii.eqb c "/") && plain rest
  end.

(** a string without dot *)
Fixpoint dotless (s : string) : bool :=
  match s with
  | "" => true
  | String c rest => negb (Ascii.eqb c ".") && dotless rest
  end.

(** the diagnostic of a failed compiler run *)
Definition compileFailure (err dir line : string) (output : bytes) : string :=
  "couldn't generate plugin due to the: " +:+ err +:+ " at: " +:+ dir +:+ nl +:+ tab
  +:+ "stdin: " +:+ line +:+ nl +:+ tab +:+ "stdount: " +:+ String.string_of_list_byte output.

End more.

(** ** The concrete world with faults

    The same host, with a toolchain cache that cannot be written to, and a
    file whose stream breaks while it is read. *)

Module Faulty.
Import gostd builder.

Definition X : Collaborators Demo.world :=
  {| Build_Init := Build_Init _ Demo.X;
     Build_Validate := Build_Validate _ Demo.X;
     Build_GetModeWithSpec := Build_GetModeWithSpec _ Demo.X;
     Source_Pack := Source_Pack _ Demo.X;
     Source_entries := Source_entries _ Demo.X;
     Source_stage := Source_stage _ Demo.X;
     Runtime_Init := Runtime_Init _ Demo.X;
     AsScn := AsScn _ Demo.X;
     NewSnapshot := NewSnapshot _ Demo.X;
     Snapshot_BasePluginURL := Snapshot_BasePluginURL _ Demo.X;
     Snapshot_replaceDependencies := Snapshot_replaceDependencies _ Demo.X;
     Snapshot_buildCmdArgs := Snapshot_buildCmdArgs _ Demo.X;
     Snapshot_Env := Snapshot_Env _ Demo.X;
     Service_runDocker := Service_runDocker _ Demo.X;
     Client_IsUp := Client_IsUp _ Demo.X;
     Client_Build := Client_Build _ Demo.X;
     defaultDirPermission := defaultDirPermission _ Demo.X;
     fs_Exists := fs_Exists _ Demo.X;
     fs_Copy := fs_Copy _ Demo.X;
     fs_DownloadWithURL := fs_DownloadWithURL _ Demo.X;
     os_MkdirAll := fun w p perm => (Some "permission denied", w);
     exec_CombinedOutput := exec_CombinedOutput _ Demo.X;
     exec_LookPath := exec_LookPath _ Demo.X;
     path_Join := path_Join _ Demo.X;
     map_range := map_range _ Demo.X |}.

(** a stream that yields the first bytes of a file and then fails *)
Definition tornReader : Reader :=
  {| pending := String.list_byte_of_string "package ma";
     failure := Some "unexpected EOF";
     closed := false |}.

End Faulty.

(** * Properties *)

Import gostd builder props.

Example Ext_go : Ext "cmd/tool/main.go" = ".go".
Proof. reflexivity. Qed.

Example Ext_no_dot_in_last_element : Ext "a.b/Makefile" = "".
Proof. reflexivity. Qed.

Example Ext_final_dot : Ext "go.work.sum" = ".sum".
Proof. reflexivity. Qed.

Example Sprintf_pair : Sprintf "%v=%v" ["GOOS"; "linux"] = "GOOS=linux".
Proof. reflexivity. Qed.

Example Replace_scheme :
  Replace "https://dl.google.com/go/x" "://" ":" 1 = "https:dl.google.com/go/x".
Proof. reflexivity. Qed.

Example Contains_marker : Contains Demo.mainGo mainFragment = true.
Proof. reflexivity. Qed.

Example Contains_no_marker : Contains Demo.readme mainFragment = false.
Proof. reflexivity. Qed.

(** The end-to-end scenarios, on the concrete world.  A: a plugin bundle for
    the host's own runtime is built locally. *)
Example scenario_A_local_build :
  let out := run (Build Demo.X Demo.service (Demo.spec Demo.linuxAmd64 false) []) Demo.fresh in
  out.1.2 = (Some {| build.Mode := "plugin"; build.ModuleData := Demo.artifact;
                     build.ModuleInfo := {| build.Scn := 7;
                                            build.InfoRuntime := Demo.linuxAmd64;
                                            build.InfoName := "fee" |} |}, None)
  ∧ count isCopy (trace out.2) = 1
  ∧ "/tmp/plugin/cmd/main.go" ∈ Demo.files (world out.2).
Proof. split; [reflexivity |]. split; [reflexivity |]. vm_compute. set_solver. Qed.

(** B: a foreign runtime and no delegation for it. *)
Example scenario_B_no_delegation :
  let out := run (Build Demo.X Demo.service (Demo.spec Demo.darwinArm64 false) []) Demo.fresh in
  out.1.2 = (None, Some "runtime mismatch: host linux/amd64, requested darwin/arm64")
  ∧ trace out.2 = [EvMatch Demo.darwinArm64].
Proof. split; reflexivity. Qed.

(** C: a delegation that is down and cannot be brought up. *)
Example scenario_C_delegation_unreachable :
  let spec := Demo.spec Demo.darwinArm64 false in
  let out := run (Build Demo.X Demo.serviceWithMac spec []) Demo.offline in
  out.1.2 = (None, Some "docker is not running")
  ∧ trace out.2 = [EvMatch Demo.darwinArm64; EvIsUp "http://mac.local:8089";
                   EvRunDocker Demo.macBuilder spec].
Proof. split; reflexivity. Qed.

(** a delegation that is up receives the spec *)
Example scenario_delegated :
  let spec := Demo.spec Demo.darwinArm64 true in
  let sent := Demo.spec Demo.darwinArm64 false in
  let out := run (Build Demo.X Demo.serviceWithMac spec []) Demo.fresh in
  out.1.2 = (Some (Demo.remoteModule sent), None)
  ∧ trace out.2 = [EvMatch Demo.darwinArm64; EvIsUp "http://mac.local:8089";
                   EvLogf ("%v is up" +:+ nl) ["mac"];
                   EvClientBuild "http://mac.local:8089" sent].
Proof. split; reflexivity. Qed.

(** ** A small logic of traces *)

Section TraceLogic.
Context {W : Type}.
Implicit Types P : Event -> Prop.

Lemma emits_ret {A} P (a : A) : emits (W:=W) P (ret a).
Proof. intros st. exists []. by rewrite app_nil_r. Qed.

Lemma emits_bind {A B} P (m : M W A) (k : A -> M W B) :
  emits P m -> (∀ a, emits P (k a)) -> emits P (bind m k).
Proof.
  intros Hm Hk st. unfold bind.
  destruct (Hm st) as (evs1 & E1 & F1).
  destruct (m st) as [a st1] eqn:Em. simpl in E1.
  destruct (Hk a st1) as (evs2 & E2 & F2).
  exists (evs1 ++ evs2)%list. split.
  - by rewrite E2, E1, app_assoc.
  - by apply Forall_app.
Qed.

Lemma emits_emit P (e : Event) : P e -> emits (W:=W) P (emit e).
Proof. intros He st. exists [e]. split; [done | by constructor]. Qed.

Lemma emits_ask {A} P (f : W -> A) : emits P (ask f).
Proof. intros st. exists []. by rewrite app_nil_r. Qed.

Lemma emits_act {A} P (f : W -> A * W) : emits P (act f).
Proof.
  intros st. exists []. unfold act. destruct (f (world st)). simpl.
  by rewrite app_nil_r.
Qed.

Lemma emits_run {A} P (m : M W A) (w : W) :
  emits P m -> Forall P (trace (run m w).2).
Proof.
  intros Hm. destruct (Hm {| world := w; trace := [] |}) as (evs & E & F).
  unfold run. by rewrite E.
Qed.

End TraceLogic.

Ltac emits_step :=
  lazymatch goal with
  | |- emits _ (ret _) => apply emits_ret
  | |- emits _ (bind _ _) => apply emits_bind; [| intros ?]
  | |- emits _ (emit _) => apply emits_emit; simpl; try done
  | |- emits _ (Logf _ _ _) => apply emits_emit; simpl; try done
  | |- emits _ (ask _) => apply emits_ask
  | |- emits _ (act _) => apply emits_act
  | |- emits _ (match ?x with _ => _ end) => destruct x
  end.

Ltac emits_auto := repeat emits_step.

(** [emits_with leaf]: walk a computation bind by bind, closing the calls to
    other functions with [leaf] *)
Ltac emits_with leaf :=
  repeat first
    [ leaf
    | emits_step
    | lazymatch goal with
      | |- emits _ (let _ := _ in _) => cbv zeta
      end ].

Ltac emits_zeta := emits_with fail.

(** ** The orchestrator: validation, the local-or-delegated decision *)

Section Orchestrator.
Context {W : Type} (X : Collaborators W).

Lemma Match_none (registry : Delegations) (rt : build.Runtime) :
  Forall (fun d => Matches d rt = false) registry -> Match registry rt = None.
Proof.
  intros Hall. unfold Match.
  destruct (list_find _ registry) as [[i d]|] eqn:Hfind; [| done].
  apply list_find_Some in Hfind as (Hi & Hd & _).
  rewrite Forall_forall in Hall.
  assert (d ∈ registry) as Hin by (eapply list_elem_of_lookup_2; eauto).
  rewrite (Hall d Hin) in Hd. done.
Qed.

Lemma ValidateOsAndArch_same (host requested : build.Runtime) :
  sameRuntime host requested -> build.ValidateOsAndArch host requested = None.
Proof. intros H. unfold build.ValidateOsAndArch. by rewrite decide_True. Qed.

Lemma ValidateOsAndArch_differ (host requested : build.Runtime) :
  ¬ sameRuntime host requested -> build.ValidateOsAndArch host requested ≠ None.
Proof. intros H. unfold build.ValidateOsAndArch. by rewrite decide_False. Qed.

Lemma setEnsureTheSameOs_cleared (spec : build.Build) :
  build.EnsureTheSameOs (build.Go (build.setEnsureTheSameOs false spec)) = false.
Proof. reflexivity. Qed.

(** What [Build] does once the spec is valid and the decision is to
    delegate. *)
Lemma Build_delegates (s : Service) (buildSpec : build.Build) (opts : list build.Option) :
  let spec0 := initialised X buildSpec opts in
  let err := build.ValidateOsAndArch (Runtime (cfg s)) (build.GoRuntime (build.Go spec0)) in
  Build_Validate _ X spec0 = None ->
  err ≠ None ∨ build.EnsureTheSameOs (build.Go spec0) = true ->
  Build X s buildSpec opts = delegateBuildOrFail X s spec0 err.
Proof.
  intros spec0 err Hvalid Hdecide. unfold Build.
  fold (initialised X buildSpec opts). fold spec0. rewrite Hvalid. fold err.
  destruct Hdecide as [Herr | Hflag].
  - by rewrite (bool_decide_eq_true_2 _ Herr).
  - rewrite Hflag. by rewrite orb_true_r.
Qed.

Lemma ensureDocker_emits_flagCleared (s : Service) (d : Delegation) (spec : build.Build) :
  build.EnsureTheSameOs (build.Go spec) = false ->
  emits flagCleared (ensureDocker X s d spec).
Proof. intros Hflag. unfold ensureDocker. emits_zeta. Qed.

Lemma delegateBuildOrFail_emits_flagCleared (s : Service) (spec : build.Build)
    (err : option error) :
  emits flagCleared (delegateBuildOrFail X s spec err).
Proof.
  unfold delegateBuildOrFail. cbv zeta. emits_zeta.
  by apply ensureDocker_emits_flagCleared.
Qed.

Lemma delegateBuildOrFail_leaves_spec (s : Service) (spec : build.Build)
    (err : option error) (st : State W) :
  (delegateBuildOrFail X s spec err st).1.1 = build.setEnsureTheSameOs false spec.
Proof.
  unfold delegateBuildOrFail, bind, emit, ret. cbv zeta.
  repeat match goal with
         | |- context [match ?x with _ => _ end] => destruct x; simpl
         end; reflexivity.
Qed.

Lemma delegateBuildOrFail_searches_first (s : Service) (spec : build.Build)
    (err : option error) (w : W) :
  ∃ rest, trace (run (delegateBuildOrFail X s spec err) w).2
          = EvMatch (build.GoRuntime (build.Go spec)) :: rest.
Proof.
  unfold run, delegateBuildOrFail. cbv zeta.
  unfold bind at 1. unfold emit at 1. cbn [world trace app].
  destruct (Match _ _) as [d|]; [| by eexists].
  assert (emits (fun _ => True)
            (let* err0 := ensureDocker X s d (build.setEnsureTheSameOs false spec) in
             match err0 with
             | Some err1 => ret (build.setEnsureTheSameOs false spec, (None, Some err1))
             | None =>
                 let* _ := emit (EvClientBuild (baseURL d)
                                   (build.setEnsureTheSameOs false spec)) in
                 let* '(plugin, err1) :=
                   act (fun w => Client_Build _ X w (baseURL d)
                                   (build.setEnsureTheSameOs false spec)) in
                 ret (build.setEnsureTheSameOs false spec, (plugin, err1))
             end)) as Hrest.
  { unfold ensureDocker. emits_zeta. }
  destruct (Hrest {| world := w;
                     trace := [EvMatch (build.GoRuntime (build.Go spec))] |})
    as (evs & E & _).
  exists evs. exact E.
Qed.

End Orchestrator.

(** ** Validation, delegation and the local path *)

Section Decision.
Context {W : Type} (X : Collaborators W).

Lemma Build_invalid (s : Service) (buildSpec : build.Build) (opts : list build.Option)
    (err : error) :
  Build_Validate _ X (initialised X buildSpec opts) = Some err ->
  Build X s buildSpec opts = ret (initialised X buildSpec opts, (None, Some err)).
Proof.
  intros Hinvalid. unfold Build. fold (initialised X buildSpec opts).
  by rewrite Hinvalid.
Qed.

(** C9.  A spec that fails structural validation ends [Build] at once: the
    validation error is returned with a nil module, the world is as it was
    and no collaborator was called -- no packing, no snapshot, no toolchain
    install, no delegation, no compiler.  The same holds one level up in
    [pgo.Build], whether its own option validation fails or the builder's
    validation of the derived spec does: nothing is built and nothing is
    stored. *)
Theorem C9_validation_failure_is_terminal
    (P : pgo.Collaborators W) (s : Service) (buildSpec : build.Build)
    (opts : list build.Option) (err : error) (w : W) :
  Build_Validate _ X (initialised X buildSpec opts) = Some err ->
  run (Build X s buildSpec opts) w
    = ((initialised X buildSpec opts, (None, Some err)), {| world := w; trace := [] |})
  ∧ (∀ o : pgo.Options,
       pgo.Options_Validate _ P (pgo.Options_Init _ P o) = None ->
       pgo.Options_buildSpec _ P (pgo.Options_Init _ P o) = buildSpec ->
       run (pgo.Build X P o opts) w = (Some err, {| world := w; trace := [] |}))
  ∧ (∀ (o : pgo.Options) (e : error),
       pgo.Options_Validate _ P (pgo.Options_Init _ P o) = Some e ->
       run (pgo.Build X P o opts) w = (Some e, {| world := w; trace := [] |})).
Proof.
  intros Hinvalid. split; [| split].
  - by rewrite (Build_invalid s buildSpec opts err Hinvalid).
  - intros o Hopt Hspec. unfold pgo.Build. rewrite Hopt, Hspec.
    by rewrite (Build_invalid _ buildSpec opts err Hinvalid).
  - intros o e Hopt. unfold pgo.Build. by rewrite Hopt.
Qed.

(** C4.  A valid spec whose runtime differs from the host's, with no
    registry entry matching it: [Build] returns a nil module with the
    runtime-mismatch error of the runtime check.  The registry search is the
    only call made -- no snapshot, no toolchain install, no compiler -- and
    the world is as it was. *)
Theorem C4_mismatch_without_delegation_fails
    (s : Service) (buildSpec : build.Build) (opts : list build.Option) (w : W) :
  let spec0 := initialised X buildSpec opts in
  let requested := build.GoRuntime (build.Go spec0) in
  Build_Validate _ X spec0 = None ->
  ¬ sameRuntime (Runtime (cfg s)) requested ->
  Forall (fun d => Matches d requested = false) (delegations (cfg s)) ->
  ∃ mismatch : error,
    build.ValidateOsAndArch (Runtime (cfg s)) requested = Some mismatch
    ∧ run (Build X s buildSpec opts) w
      = ((build.setEnsureTheSameOs false spec0, (None, Some mismatch)),
         {| world := w; trace := [EvMatch requested] |})
    ∧ Forall (fun e => localCall e = false) (trace (run (Build X s buildSpec opts) w).2).
Proof.
  intros spec0 requested Hvalid Hdiffer Hnone.
  pose proof (ValidateOsAndArch_differ _ _ Hdiffer) as Herr.
  destruct (build.ValidateOsAndArch (Runtime (cfg s)) requested) as [mismatch|] eqn:Hcheck;
    [| done].
  exists mismatch. split; [done |].
  assert (run (Build X s buildSpec opts) w
          = (build.setEnsureTheSameOs false spec0, (None, Some mismatch),
             {| world := w; trace := [EvMatch requested] |})) as Hrun.
  { rewrite (Build_delegates X s buildSpec opts Hvalid).
    - fold spec0. fold requested. rewrite Hcheck.
      unfold run, delegateBuildOrFail. cbv zeta.
      change (build.GoRuntime (build.Go (build.setEnsureTheSameOs false spec0)))
        with requested.
      by rewrite (Match_none _ _ Hnone).
    - left. fold spec0. fold requested. by rewrite Hcheck. }
  split; [done |]. rewrite Hrun. simpl. by repeat constructor.
Qed.

(** C2 (the defect, in general).  When the forced-delegation flag alone
    sends a valid spec to delegation -- the runtime check succeeded -- and
    the registry has no entry for it, [Build] returns a nil module together
    with a nil error. *)
Lemma Build_forced_without_delegation
    (s : Service) (buildSpec : build.Build) (opts : list build.Option) (w : W) :
  let spec0 := initialised X buildSpec opts in
  let requested := build.GoRuntime (build.Go spec0) in
  Build_Validate _ X spec0 = None ->
  sameRuntime (Runtime (cfg s)) requested ->
  build.EnsureTheSameOs (build.Go spec0) = true ->
  Forall (fun d => Matches d requested = false) (delegations (cfg s)) ->
  (run (Build X s buildSpec opts) w).1.2 = (None, None).
Proof.
  intros spec0 requested Hvalid Hsame Hflag Hnone.
  rewrite (Build_delegates X s buildSpec opts Hvalid); [| by right].
  fold spec0. fold requested. rewrite (ValidateOsAndArch_same _ _ Hsame).
  unfold run, delegateBuildOrFail. cbv zeta.
  change (build.GoRuntime (build.Go (build.setEnsureTheSameOs false spec0)))
    with requested.
  by rewrite (Match_none _ _ Hnone).
Qed.

(** C1.  Whenever [Build] takes the delegation path -- the spec is valid,
    and the runtime check failed or the forced-delegation flag is set --
    the run is the run of [delegateBuildOrFail] on the spec with the flag
    already cleared: the registry search, which is the first call, and all
    that follows happen with the flag false.  The spec the caller is left
    with has the flag false whatever the search finds, and every spec handed
    to docker bring-up or sent to the remote endpoint has it false. *)
Theorem C1_flag_cleared_before_delegation
    (s : Service) (buildSpec : build.Build) (opts : list build.Option) (w : W) :
  let spec0 := initialised X buildSpec opts in
  let err := build.ValidateOsAndArch (Runtime (cfg s)) (build.GoRuntime (build.Go spec0)) in
  let out := run (Build X s buildSpec opts) w in
  Build_Validate _ X spec0 = None ->
  err ≠ None ∨ build.EnsureTheSameOs (build.Go spec0) = true ->
  out = run (delegateBuildOrFail X s (build.setEnsureTheSameOs false spec0) err) w
  ∧ out.1.1 = build.setEnsureTheSameOs false spec0
  ∧ build.EnsureTheSameOs (build.Go out.1.1) = false
  ∧ (∃ rest, trace out.2 = EvMatch (build.GoRuntime (build.Go spec0)) :: rest)
  ∧ Forall flagCleared (trace out.2)
  ∧ (∀ address sent, EvClientBuild address sent ∈ trace out.2 ->
       build.EnsureTheSameOs (build.Go sent) = false).
Proof.
  intros spec0 err out Hvalid Hdecide.
  assert (out = run (delegateBuildOrFail X s spec0 err) w) as Hout.
  { unfold out. by rewrite (Build_delegates X s buildSpec opts Hvalid Hdecide). }
  assert (Forall flagCleared (trace out.2)) as Hall.
  { rewrite Hout. apply emits_run, delegateBuildOrFail_emits_flagCleared. }
  assert (out.1.1 = build.setEnsureTheSameOs false spec0) as Hleft.
  { rewrite Hout. apply delegateBuildOrFail_leaves_spec. }
  split; [exact Hout |]. split; [exact Hleft |]. split; [by rewrite Hleft |].
  split; [rewrite Hout; apply delegateBuildOrFail_searches_first |].
  split; [exact Hall |].
  intros address sent Hin. rewrite Forall_forall in Hall.
  exact (Hall _ Hin).
Qed.

End Decision.

(** ** The local build path makes no delegation call *)

Section LocalPath.
Context {W : Type} (X : Collaborators W).

Lemma emits_weaken {A} (P Q : Event -> Prop) (m : M W A) :
  (∀ e, P e -> Q e) -> emits P m -> emits Q m.
Proof.
  intros HPQ Hm st. destruct (Hm st) as (evs & E & F).
  exists evs. split; [done |]. eapply Forall_impl; eauto.
Qed.

Lemma ensureGo_local (s : Service) (snapshot : Snapshot) (version : string)
    (spec : build.Build) :
  emits notDelegation (ensureGo X s snapshot version (Logf spec)).
Proof. unfold ensureGo. emits_zeta. Qed.

Lemma processSource_local (reader : Reader) (parent : string) (info : FileInfo)
    (snapshot : Snapshot) (replace : bool) :
  emits notDelegation (processSource X reader parent info snapshot replace).
Proof. unfold processSource. emits_zeta. Qed.

Lemma onFile_local (s : Service) (buildMode parent : string) (info : FileInfo)
    (reader : Reader) (snapshot : Snapshot) :
  emits notDelegation (onFile X s buildMode parent info reader snapshot).
Proof.
  unfold onFile. cbv zeta. case_bool_decide.
  - apply processSource_local.
  - apply emits_ret.
Qed.

Lemma unpackEntry_local (s : Service) (buildMode dest : string) (e : Entry)
    (snapshot : Snapshot) :
  emits notDelegation (unpackEntry X dest AppendMod (onFile X s buildMode) e snapshot).
Proof.
  unfold unpackEntry. cbv zeta. apply emits_bind; [apply onFile_local |].
  intros [snapshot' [[info' reader'] err]]. emits_zeta.
Qed.

Lemma unpackEntries_local (s : Service) (buildMode dest : string) (entries : list Entry) :
  ∀ snapshot,
    emits notDelegation
      (unpackEntries X dest AppendMod (onFile X s buildMode) entries snapshot).
Proof.
  induction entries as [| e rest IH]; intros snapshot; simpl.
  - apply emits_ret.
  - apply emits_bind; [apply unpackEntry_local |].
    intros [snapshot' [err|]]; [apply emits_ret | apply IH].
Qed.

Lemma Source_Unpack_local (s : Service) (buildMode dest : string) (source : build.Source)
    (snapshot : Snapshot) :
  emits notDelegation
    (Source_Unpack X source dest AppendMod (onFile X s buildMode) snapshot).
Proof.
  unfold Source_Unpack. apply emits_bind; [by apply emits_emit |]. intros _.
  apply emits_bind; [apply emits_ask |]. intros [entries broken].
  apply emits_bind; [apply unpackEntries_local |].
  intros [snapshot' [err|]]; apply emits_ret.
Qed.

Lemma build_local (snapshot : Snapshot) (buildSpec : build.Build) :
  emits notDelegation (build X snapshot buildSpec).
Proof. unfold build. emits_zeta. Qed.

Lemma Build_local (s : Service) (buildSpec : build.Build) (opts : list build.Option) :
  let spec0 := initialised X buildSpec opts in
  sameRuntime (Runtime (cfg s)) (build.GoRuntime (build.Go spec0)) ->
  build.EnsureTheSameOs (build.Go spec0) = false ->
  emits notDelegation (Build X s buildSpec opts).
Proof.
  intros spec0 Hsame Hflag. unfold Build. fold (initialised X buildSpec opts). fold spec0.
  destruct (Build_Validate W X spec0); [apply emits_ret |].
  rewrite (ValidateOsAndArch_same _ _ Hsame), Hflag.
  rewrite bool_decide_eq_false_2 by (intros Hne; by apply Hne).
  cbn [orb].
  emits_with ltac:(first [apply ensureGo_local | apply Source_Unpack_local
                           | apply build_local]).
Qed.

(** the first call of a valid local build *)
Lemma Build_local_start (s : Service) (buildSpec : build.Build)
    (opts : list build.Option) (w : W) :
  let spec0 := initialised X buildSpec opts in
  Build_Validate _ X spec0 = None ->
  sameRuntime (Runtime (cfg s)) (build.GoRuntime (build.Go spec0)) ->
  build.EnsureTheSameOs (build.Go spec0) = false ->
  ∃ e rest, trace (run (Build X s buildSpec opts) w).2 = e :: rest ∧ localStart e = true.
Proof.
  intros spec0 Hvalid Hsame Hflag.
  unfold Build. fold (initialised X buildSpec opts). fold spec0.
  rewrite Hvalid, (ValidateOsAndArch_same _ _ Hsame), Hflag.
  rewrite bool_decide_eq_false_2 by (intros Hne; by apply Hne).
  cbn [orb]. unfold run.
  destruct (decide _) as [Hempty | Hpacked].
  - (* the bundle is packed first *)
    set (k := fun x : build.Build * option error => _).
    set (pack := bind (act _) _).
    assert (emits notDelegation (bind pack k)) as Hrest.
    { subst pack k.
      emits_with ltac:(first [apply ensureGo_local | apply Source_Unpack_local
                           | apply build_local]). }
    destruct (Hrest {| world := w; trace := [EvPack (build.BuildSource spec0)] |})
      as (evs & E & _).
    exists (EvPack (build.BuildSource spec0)), evs. split; [| done].
    exact E.
  - (* already packed: the snapshot comes first *)
    unfold bind at 1. unfold ret at 1.
    destruct (Build_GetModeWithSpec W X spec0) as [buildMode spec].
    set (k := fun _ : unit => _).
    assert (emits notDelegation (k tt)) as Hrest.
    { subst k. cbv beta.
      emits_with ltac:(first [apply ensureGo_local | apply Source_Unpack_local
                           | apply build_local]). }
    destruct (Hrest {| world := w;
                       trace := [EvNewSnapshot buildMode spec (build.Go spec0)] |})
      as (evs & E & _).
    exists (EvNewSnapshot buildMode spec (build.Go spec0)), evs. split; [| done].
    exact E.
Qed.

(** C3.  A spec whose requested (OS, architecture) equals the host's and
    whose forced-delegation flag is not set (both as [Build] sees them,
    after the option hooks and [Init]): no call of [Build] is a delegation
    call -- the registry's [Match] is never invoked, nor the liveness probe,
    docker or the remote client -- and, the spec being valid, the first call
    is the start of the local build path. *)
Theorem C3_matching_runtime_builds_locally
    (s : Service) (buildSpec : build.Build) (opts : list build.Option) (w : W) :
  let spec0 := initialised X buildSpec opts in
  let tr := trace (run (Build X s buildSpec opts) w).2 in
  sameRuntime (Runtime (cfg s)) (build.GoRuntime (build.Go spec0)) ->
  build.EnsureTheSameOs (build.Go spec0) = false ->
  (∀ rt, EvMatch rt ∉ tr)
  ∧ Forall (fun e => delegationCall e = false) tr
  ∧ (Build_Validate _ X spec0 = None ->
     ∃ e rest, tr = e :: rest ∧ localStart e = true).
Proof.
  intros spec0 tr Hsame Hflag.
  assert (Forall (fun e => delegationCall e = false) tr) as Hall.
  { apply emits_run. by apply Build_local. }
  split; [| split].
  - intros rt Hin. rewrite Forall_forall in Hall.
    specialize (Hall _ Hin). discriminate.
  - exact Hall.
  - intros Hvalid. by apply Build_local_start.
Qed.

End LocalPath.

(** ** The toolchain manager *)

Section Toolchain.
Context {W : Type} (X : Collaborators W).

Lemma count_app (p : Event -> bool) (l1 l2 : list Event) :
  count p (l1 ++ l2) = (count p l1 + count p l2)%nat.
Proof. unfold count. by rewrite List.filter_app, length_app. Qed.

(** the hit path: one existence check, one log line, nothing else *)
Lemma ensureGo_hit (s : Service) (snapshot : Snapshot) (version : string)
    (spec : build.Build) (st : State W) :
  let verLocation := path_Join _ X [GoDir snapshot; "go" +:+ version] in
  let bin := path_Join _ X [verLocation; "go"] in
  (fs_Exists _ X (world st) bin).1 = true ->
  ensureGo X s snapshot version (Logf spec) st
  = (None, {| world := world st;
              trace := trace st ++
                       [EvExists bin;
                        EvLogf ("checking binary[%v]: %v" +:+ nl) ["true"; verLocation]] |}).
Proof.
  intros verLocation bin Hexists.
  unfold ensureGo, bind, emit, ask, Logf, ret. cbv zeta. cbn [world trace].
  fold verLocation. fold bin.
  destruct (fs_Exists W X (world st) bin) as [ok ?]. simpl in Hexists. subst ok.
  simpl. by rewrite <- List.app_assoc.
Qed.

(** one call performs each install step at most once *)
Lemma ensureGo_once (s : Service) (snapshot : Snapshot) (version : string)
    (spec : build.Build) (st : State W) :
  ∃ evs, trace (ensureGo X s snapshot version (Logf spec) st).2 = (trace st ++ evs)%list
         ∧ (count isMkdirAll evs ≤ 1)%nat ∧ (count isCopy evs ≤ 1)%nat.
Proof.
  unfold ensureGo, Logf, bind, emit, ask, act, ret. cbv zeta. cbn [world trace].
  destruct (fs_Exists W X _ _) as [[|] ?]; cbn [world trace snd].
  { eexists. rewrite <- List.app_assoc. split; [reflexivity |]. simpl. unfold count. simpl. lia. }
  destruct (os_MkdirAll W X _ _ _) as [[?|] ?]; cbn [world trace snd].
  { eexists. rewrite <- !List.app_assoc. split; [reflexivity |]. unfold count. simpl. lia. }
  destruct (fs_Copy W X _ _ _) as [[?|] ?]; cbn [world trace snd].
  - eexists. rewrite <- !List.app_assoc. split; [reflexivity |]. unfold count. simpl. lia.
  - eexists. rewrite <- !List.app_assoc. split; [reflexivity |]. unfold count. simpl. lia.
Qed.

(** C5, as amended.  If the compiler binary exists at the version subpath,
    [ensureGo] returns success at once: one existence check and one log
    line, no directory creation, no fetch, the world untouched.  Calling it
    twice in sequence, with the binary present at the subpath after the
    first call (as a successful fetch-and-extract leaves it), the second
    call is such a hit and the two calls together create the directory and
    fetch the archive at most once. *)
Theorem C5_ensureGo_idempotent_once_installed
    (s : Service) (snapshot : Snapshot) (spec : build.Build) (w : W) :
  let version := build.Version (build.GoRuntime (build.Go spec)) in
  let verLocation := path_Join _ X [GoDir snapshot; "go" +:+ version] in
  let bin := path_Join _ X [verLocation; "go"] in
  let first := run (ensureGo X s snapshot version (Logf spec)) w in
  (fs_Exists _ X (world first.2) bin).1 = true ->
  (∀ st, (fs_Exists _ X (world st) bin).1 = true ->
     ensureGo X s snapshot version (Logf spec) st
     = (None, {| world := world st;
                 trace := trace st ++
                          [EvExists bin;
                           EvLogf ("checking binary[%v]: %v" +:+ nl)
                             ["true"; verLocation]] |}))
  ∧ run (ensureGoTwice X s snapshot spec) w
    = ((first.1, None),
       {| world := world first.2;
          trace := trace first.2 ++
                   [EvExists bin;
                    EvLogf ("checking binary[%v]: %v" +:+ nl) ["true"; verLocation]] |})
  ∧ installsAtMostOnce X s snapshot spec w.
Proof.
  intros version verLocation bin first Hpresent.
  assert (run (ensureGoTwice X s snapshot spec) w
          = ((first.1, None),
             {| world := world first.2;
                trace := trace first.2 ++
                         [EvExists bin;
                          EvLogf ("checking binary[%v]: %v" +:+ nl)
                            ["true"; verLocation]] |})) as Htwice.
  { unfold run, ensureGoTwice. unfold bind at 1. fold version.
    change (ensureGo X s snapshot version (Logf spec) {| world := w; trace := [] |})
      with first.
    destruct first as [r1 st1] eqn:Hfirst. simpl in Hpresent |- *.
    unfold bind at 1.
    by rewrite (ensureGo_hit s snapshot version spec st1 Hpresent). }
  split; [| split].
  - intros st Hexists. by apply ensureGo_hit.
  - exact Htwice.
  - unfold installsAtMostOnce. rewrite Htwice. cbn [snd trace].
    destruct (ensureGo_once s snapshot version spec {| world := w; trace := [] |})
      as (evs & E & Hmk & Hcp).
    fold (run (ensureGo X s snapshot version (Logf spec)) w) in E. fold first in E.
    rewrite E. cbn [trace app]. rewrite !count_app.
    unfold count at 2 4. simpl. lia.
Qed.

End Toolchain.

(** ** The snapshot builder: the per-file callback *)

Section SnapshotBuilder.
Context {W : Type} (X : Collaborators W).

(** [processSource] on a readable file, without rewriting *)
Lemma processSource_scan (reader : Reader) (parent : string) (fi : FileInfo)
    (snapshot : Snapshot) (st : State W) :
  failure reader = None ->
  processSource X reader parent fi snapshot false st
  = ((if Contains (pending reader) mainFragment
      then AppendMain (path_Join _ X [parent; FileName fi]) snapshot
      else snapshot,
      (fi, NewReader (pending reader), None)), st).
Proof.
  intros Hread. unfold processSource, ReadAll. rewrite Hread. reflexivity.
Qed.

(** [processSource] on a readable file, with rewriting *)
Lemma processSource_rewrite (reader : Reader) (parent : string) (fi : FileInfo)
    (snapshot : Snapshot) (st : State W) :
  failure reader = None ->
  processSource X reader parent fi snapshot true st
  = (match Snapshot_replaceDependencies _ X snapshot (pending reader) with
     | (_, Some err) =>
         (snapshot,
          (fi, Close {| pending := []; failure := None; closed := closed reader |},
           Some err))
     | (rewritten, None) =>
         (if Contains rewritten mainFragment
          then AppendMain (path_Join _ X [parent; FileName fi]) snapshot
          else snapshot,
          (fi, NewReader rewritten, None))
     end,
     {| world := world st;
        trace := trace st ++ [EvReplaceDependencies (pending reader)] |}).
Proof.
  intros Hread. unfold processSource, ReadAll. rewrite Hread.
  unfold bind, emit, ret. cbn [world trace].
  by destruct (Snapshot_replaceDependencies W X snapshot (pending reader)) as [? [?|]].
Qed.

Lemma AppendMain_elem (loc : string) (snapshot : Snapshot) :
  loc ∈ Mains (AppendMain loc snapshot).
Proof. simpl. set_solver. Qed.

(** C6.  A source file that is read, rewritten where rewriting applies, and
    whose resulting content contains the entry-point marker [package main]:
    after [processSource] the path [parent] joined with the file's name is
    in the snapshot's entry-point set, the file comes back with that
    content, and the build mode inferred from the snapshot is program unless
    plugin mode was requested, in which case it stays plugin. *)
Theorem C6_entry_point_is_recorded
    (reader : Reader) (parent : string) (fi : FileInfo) (snapshot : Snapshot)
    (replace : bool) (st : State W) :
  let rewritten :=
    if replace then Snapshot_replaceDependencies _ X snapshot (pending reader)
    else (pending reader, None) in
  let out := processSource X reader parent fi snapshot replace st in
  failure reader = None ->
  rewritten.2 = None ->
  Contains rewritten.1 mainFragment = true ->
  out.1.1 = AppendMain (path_Join _ X [parent; FileName fi]) snapshot
  ∧ path_Join _ X [parent; FileName fi] ∈ Mains out.1.1
  ∧ out.1.2 = (fi, NewReader rewritten.1, None)
  ∧ (Snapshot_buildMode out.1.1 ≠ "plugin" -> inferredMode out.1.1 = Program)
  ∧ (Snapshot_buildMode out.1.1 = "plugin" -> inferredMode out.1.1 = Plugin).
Proof.
  intros rewritten out Hread Hok Hmarker.
  assert (out.1 = (AppendMain (path_Join _ X [parent; FileName fi]) snapshot,
                   (fi, NewReader rewritten.1, None))) as Hout.
  { unfold out, rewritten in *. destruct replace.
    - rewrite (processSource_rewrite _ _ _ _ _ Hread).
      destruct (Snapshot_replaceDependencies W X snapshot (pending reader))
        as [bs [e|]]; simpl in *; [done |].
      by rewrite Hmarker.
    - rewrite (processSource_scan _ _ _ _ _ Hread). simpl in *.
      by rewrite Hmarker. }
  rewrite Hout. cbn [fst snd].
  split; [done |]. split; [apply AppendMain_elem |]. split; [done |].
  unfold inferredMode. split.
  - intros Hmode. rewrite decide_False by done.
    rewrite decide_False; [done |].
    intros Hempty. pose proof (AppendMain_elem (path_Join W X [parent; FileName fi]) snapshot)
      as Hin. rewrite Hempty in Hin. set_solver.
  - intros Hmode. by rewrite decide_True.
Qed.

(** C7.  For a readable file the callback calls [replaceDependencies]
    exactly when the extension is [.go], [.mod] or [.sum] and the build mode
    is plugin, and that is the only call it makes.  In plugin mode such a
    file comes back with the rewritten content; in every other mode it is
    read and scanned for the entry-point marker, and comes back with the
    content it had. *)
Theorem C7_rewrite_iff_source_file_in_plugin_mode
    (s : Service) (buildMode parent : string) (fi : FileInfo) (reader : Reader)
    (snapshot : Snapshot) (st : State W) :
  let out := onFile X s buildMode parent fi reader snapshot st in
  let loc := path_Join _ X [parent; FileName fi] in
  failure reader = None ->
  (∃ evs, trace out.2 = (trace st ++ evs)%list
          ∧ world out.2 = world st
          ∧ (EvReplaceDependencies (pending reader) ∈ evs
             ↔ sourceExt (FileName fi) ∧ buildMode = "plugin")
          ∧ (∀ e, e ∈ evs -> e = EvReplaceDependencies (pending reader)))
  ∧ (sourceExt (FileName fi) -> buildMode = "plugin" ->
     ∀ rewritten, Snapshot_replaceDependencies _ X snapshot (pending reader)
                  = (rewritten, None) ->
       out.1 = (if Contains rewritten mainFragment then AppendMain loc snapshot
                else snapshot,
                (fi, NewReader rewritten, None)))
  ∧ (sourceExt (FileName fi) -> buildMode ≠ "plugin" ->
     out.1 = (if Contains (pending reader) mainFragment then AppendMain loc snapshot
              else snapshot,
              (fi, NewReader (pending reader), None))).
Proof.
  intros out loc Hread. unfold out, onFile. cbv zeta.
  fold (sourceExt (FileName fi)).
  destruct (decide (sourceExt (FileName fi))) as [Hext | Hext].
  - rewrite (bool_decide_eq_true_2 _ Hext).
    destruct (decide (buildMode = "plugin")) as [Hmode | Hmode].
    + rewrite (bool_decide_eq_true_2 _ Hmode).
      rewrite (processSource_rewrite _ _ _ _ _ Hread). cbn [fst snd world trace].
      split; [| split].
      * exists [EvReplaceDependencies (pending reader)].
        split; [done |]. split; [done |]. split; [| by intros e ->%list_elem_of_singleton].
        split; [done | intros _; by apply list_elem_of_singleton].
      * intros _ _ rewritten Hrewritten. by rewrite Hrewritten.
      * done.
    + rewrite (bool_decide_eq_false_2 _ Hmode).
      rewrite (processSource_scan _ _ _ _ _ Hread). cbn [fst snd world trace].
      split; [| split].
      * exists []. rewrite app_nil_r.
        split; [done |]. split; [done |]. split; [| by intros e ?%elem_of_nil].
        split; [by intros ?%elem_of_nil | by intros [_ ?]].
      * done.
      * done.
  - rewrite (bool_decide_eq_false_2 _ Hext). unfold ret. cbn [fst snd world trace].
    split; [| split].
    + exists []. rewrite app_nil_r.
      split; [done |]. split; [done |]. split; [| by intros e ?%elem_of_nil].
      split; [by intros ?%elem_of_nil | by intros [? _]].
    + done.
    + done.
Qed.

(** C10.  A file whose extension is not [.go], [.mod] or [.sum]: the
    callback returns the file info and the reader it was given, no error,
    and changes neither the snapshot nor the world, and calls nothing.  The
    unpack step therefore stages the original info and reader -- the file's
    own bytes -- and leaves the entry-point set as it was. *)
Theorem C10_other_files_pass_through
    (s : Service) (buildMode dest : string) (e : Entry) (snapshot : Snapshot)
    (st : State W) :
  let step := unpackEntry X dest AppendMod (onFile X s buildMode) e snapshot st in
  ¬ sourceExt (FileName (info e)) ->
  onFile X s buildMode (parent e) (info e) (content e) snapshot st
    = ((snapshot, (info e, content e, None)), st)
  ∧ trace step.2 = (trace st ++ [EvStage dest (parent e) (info e) (content e)])%list
  ∧ step.1.2 = (Source_stage _ X (world st) dest (parent e) (info e) (content e)).1
  ∧ world step.2 = (Source_stage _ X (world st) dest (parent e) (info e) (content e)).2
  ∧ Mains step.1.1 = Mains snapshot.
Proof.
  intros step Hext.
  assert (∀ snap, onFile X s buildMode (parent e) (info e) (content e) snap st
                  = ((snap, (info e, content e, None)), st)) as Hcallback.
  { intros snap. unfold onFile. cbv zeta. fold (sourceExt (FileName (info e))).
    by rewrite (bool_decide_eq_false_2 _ Hext). }
  split; [apply Hcallback |].
  assert (step
          = ((match descriptor e with
              | Some fragment => AppendMod fragment snapshot
              | None => snapshot
              end,
              (Source_stage _ X (world st) dest (parent e) (info e) (content e)).1),
             {| world := (Source_stage _ X (world st) dest (parent e) (info e)
                            (content e)).2;
                trace := trace st ++ [EvStage dest (parent e) (info e) (content e)] |}))
    as Hstep.
  { unfold step, unpackEntry. cbv zeta. unfold bind at 1. rewrite Hcallback.
    unfold bind, emit, act, ret. cbn [world trace].
    by destruct (Source_stage W X (world st) dest (parent e) (info e) (content e)). }
  rewrite Hstep. cbn [fst snd world trace].
  repeat split. by destruct (descriptor e).
Qed.

End SnapshotBuilder.

(** ** The local compiler invoker: the environment of the child process *)

Section Invoker.
Context {W : Type} (X : Collaborators W).

Lemma append_empty_r (v : string) : v +:+ "" = v.
Proof.
  induction v as [| c v IH]; [done |].
  change (String c (v +:+ "") = String c v). by rewrite IH.
Qed.

Lemma Sprintf_entry (k v : string) : Sprintf "%v=%v" [k; v] = entry (k, v).
Proof.
  unfold entry. cbn [Sprintf Ascii.eqb Bool.eqb fst snd].
  change (k +:+ String "=" (v +:+ "") = k +:+ "=" +:+ v). by rewrite append_empty_r.
Qed.

Lemma splitEntry_entry (k v : string) :
  wellFormedKey k = true -> splitEntry (entry (k, v)) = Some (k, v).
Proof.
  unfold entry. cbn [fst snd]. induction k as [| c k IH]; [done |].
  cbn [wellFormedKey]. intros [Hc Hk]%andb_true_iff. apply negb_true_iff in Hc.
  change (splitEntry (String c (k +:+ "=" +:+ v)) = Some (String c k, v)).
  cbn [splitEntry]. rewrite Hc. by rewrite (IH Hk).
Qed.

Lemma foldl_append (env : list string) (l : list (string * string)) :
  foldl (fun env kv => (env ++ [Sprintf "%v=%v" [kv.1; kv.2]])%list) env l
  = (env ++ (entry <$> l))%list.
Proof.
  revert env. induction l as [| [k v] l IH]; intros env; simpl.
  - by rewrite app_nil_r.
  - rewrite IH. cbn [fst snd]. rewrite <- List.app_assoc.
    f_equal. simpl. f_equal. apply (Sprintf_entry k v).
Qed.

(** [appendEnv] appends one entry per pair, in the order [range] visits the
    map *)
Lemma appendEnv_app (pairs : gmap string string) (env : list string) :
  map_range _ X pairs ≡ₚ map_to_list pairs ->
  appendEnv X pairs env = (env ++ (entry <$> map_range _ X pairs))%list.
Proof.
  intros Hrange. unfold appendEnv. destruct (decide _) as [Hsome | Hnone].
  - apply foldl_append.
  - assert (pairs = ∅) as -> by (apply map_size_empty_iff; lia).
    rewrite map_to_list_empty in Hrange. apply Permutation_nil_r in Hrange.
    rewrite Hrange. simpl. by rewrite app_nil_r.
Qed.

Lemma lookupEnv_app (l1 l2 : list string) (key : string) :
  lookupEnv (l1 ++ l2) key
  = match lookupEnv l2 key with
    | Some v => Some v
    | None => lookupEnv l1 key
    end.
Proof.
  induction l1 as [| e l1 IH]; simpl.
  - by destruct (lookupEnv l2 key).
  - rewrite IH. by destruct (lookupEnv l2 key).
Qed.

Lemma lookupEnv_Some (l : list string) (key v : string) :
  lookupEnv l key = Some v -> ∃ e, e ∈ l ∧ splitEntry e = Some (key, v).
Proof.
  induction l as [| e l IH]; simpl; [done |].
  destruct (lookupEnv l key) as [v'|] eqn:Hrest.
  - intros [= <-]. destruct (IH eq_refl) as (e' & Hin & Hsplit).
    exists e'. split; [by right | done].
  - destruct (splitEntry e) as [[k' v']|] eqn:Hsplit; [| done].
    destruct (decide (k' = key)) as [-> |]; [| done].
    intros [= <-]. exists e. split; [by left | done].
Qed.

Lemma lookupEnv_defined (l : list string) (e key v : string) :
  e ∈ l -> splitEntry e = Some (key, v) -> is_Some (lookupEnv l key).
Proof.
  induction l as [| e' l IH]; simpl; [by intros ?%elem_of_nil |].
  intros [-> | Hin]%elem_of_cons Hsplit.
  - destruct (lookupEnv l key); [by eexists |].
    rewrite Hsplit, decide_True by done. by eexists.
  - destruct (IH Hin Hsplit) as [v' ->]. by eexists.
Qed.

(** C8.  The environment of the compiler's child process is the snapshot's
    entries followed by one [key=value] entry per explicit variable of the
    spec, in the order [range] visits the map.  Every snapshot entry and
    every spec pair is in the list.  Precedence is the spec's, [os/exec]
    keeping the last entry of a key: a key defined by some spec entry reads
    as a spec entry's value, and a spec variable whose name holds no equals
    sign reads as the spec's value for it. *)
Theorem C8_explicit_variables_appended_last
    (snapshot : Snapshot) (buildSpec : build.Build) (w : W) :
  let pairs := build.Env (build.Go buildSpec) in
  let added := entry <$> map_range _ X pairs in
  let env := appendEnv X pairs (Snapshot_Env _ X snapshot) in
  map_range _ X pairs ≡ₚ map_to_list pairs ->
  env = (Snapshot_Env _ X snapshot ++ added)%list
  ∧ added ≡ₚ entry <$> map_to_list pairs
  ∧ (∀ e, e ∈ Snapshot_Env _ X snapshot -> e ∈ env)
  ∧ (∀ k v, pairs !! k = Some v -> entry (k, v) ∈ env)
  ∧ (∀ e key v, e ∈ added -> splitEntry e = Some (key, v) ->
       ∃ e' v', e' ∈ added ∧ splitEntry e' = Some (key, v')
                ∧ lookupEnv env key = Some v')
  ∧ (forallb (fun kv => wellFormedKey kv.1) (map_range _ X pairs) = true ->
     ∀ k v, pairs !! k = Some v -> lookupEnv env k = Some v)
  ∧ (∃ line cmd rest,
       trace (run (build X snapshot buildSpec) w).2 = line :: EvCommand cmd :: rest
       ∧ CmdEnv cmd = env
       ∧ Forall (fun e => ∀ c, e ≠ EvCommand c) (line :: rest)).
Proof.
  intros pairs added env Hrange.
  assert (env = (Snapshot_Env _ X snapshot ++ added)%list) as Henv
    by (by apply appendEnv_app).
  assert (added ≡ₚ entry <$> map_to_list pairs) as Hadded
    by (unfold added; by rewrite Hrange).
  assert (∀ k v, pairs !! k = Some v -> entry (k, v) ∈ added) as Hpair.
  { intros k v Hkv. rewrite Hadded. apply list_elem_of_fmap.
    exists (k, v). split; [done |]. by apply elem_of_map_to_list. }
  assert (∀ e key v, e ∈ added -> splitEntry e = Some (key, v) ->
            ∃ e' v', e' ∈ added ∧ splitEntry e' = Some (key, v')
                     ∧ lookupEnv env key = Some v') as Hlast.
  { intros e key v Hin Hsplit.
    destruct (lookupEnv_defined added e key v Hin Hsplit) as [v' Hv'].
    destruct (lookupEnv_Some added key v' Hv') as (e' & Hin' & Hsplit').
    exists e', v'. split; [done |]. split; [done |].
    by rewrite Henv, lookupEnv_app, Hv'. }
  split; [exact Henv |]. split; [exact Hadded |].
  split; [intros e He; rewrite Henv; apply elem_of_app; by left |].
  split; [intros k v Hkv; rewrite Henv; apply elem_of_app; right; by apply Hpair |].
  split; [exact Hlast |].
  split.
  - intros Hkeys k v Hkv.
    assert (wellFormedKey k = true) as Hk.
    { rewrite forallb_forall in Hkeys.
      assert ((k, v) ∈ map_range _ X pairs) as Hin
        by (rewrite Hrange; by apply elem_of_map_to_list).
      apply list_elem_of_In in Hin. exact (Hkeys _ Hin). }
    destruct (Hlast (entry (k, v)) k v (Hpair k v Hkv) (splitEntry_entry k v Hk))
      as (e' & v' & Hin' & Hsplit' & Hlookup).
    rewrite Hlookup. f_equal.
    unfold added in Hin'. apply list_elem_of_fmap in Hin' as ([k1 v1] & -> & Hin1).
    assert (wellFormedKey k1 = true) as Hk1.
    { rewrite forallb_forall in Hkeys. apply list_elem_of_In in Hin1.
      exact (Hkeys _ Hin1). }
    rewrite (splitEntry_entry k1 v1 Hk1) in Hsplit'. injection Hsplit' as -> ->.
    rewrite Hrange in Hin1. apply elem_of_map_to_list in Hin1. congruence.
  - unfold run, build.
    destruct (Snapshot_buildCmdArgs W X snapshot buildSpec) as [cmd args].
    cbv zeta. unfold Logf, bind, emit, ask, act, ret. cbn [world trace app].
    destruct (exec_CombinedOutput W X w _) as [[output [err|]] w'];
      cbn [world trace app snd].
    + do 3 eexists. split; [reflexivity |]. split; [reflexivity |].
      repeat constructor; by intros c.
    + do 3 eexists. split; [reflexivity |]. split; [reflexivity |].
      repeat constructor; by intros c.
Qed.

End Invoker.

(** ** The properties on the concrete world *)

(** C2.  On a linux/amd64 builder without delegations, a valid linux/amd64
    spec with the forced-delegation flag set: [Build] returns a nil module
    and a nil error after the registry search; and [pgo.Build], given the
    flag by an option hook, goes on to store the nil module. *)
Theorem C2_forced_delegation_returns_nil_module_nil_error :
  let out := run (Build Demo.X Demo.service (Demo.spec Demo.linuxAmd64 true) []) Demo.fresh in
  let top := run (pgo.Build Demo.X Demo.P Demo.options [build.setEnsureTheSameOs true])
               Demo.fresh in
  Build_Validate _ Demo.X (initialised Demo.X (Demo.spec Demo.linuxAmd64 true) []) = None
  ∧ out.1.2 = (None, None)
  ∧ trace out.2 = [EvMatch Demo.linuxAmd64]
  ∧ top.1 = None
  ∧ trace top.2 = [EvMatch Demo.linuxAmd64; EvStore None "/out/fee.so"].
Proof. repeat split; reflexivity. Qed.

(** C1 at work: a forced delegation of a darwin build to a builder that is up. *)
Lemma C1_witness :
  let spec := Demo.spec Demo.darwinArm64 true in
  let out := run (Build Demo.X Demo.serviceWithMac spec []) Demo.fresh in
  Build_Validate _ Demo.X (initialised Demo.X spec []) = None
  ∧ build.EnsureTheSameOs (build.Go (initialised Demo.X spec [])) = true
  ∧ build.EnsureTheSameOs (build.Go out.1.1) = false
  ∧ Forall flagCleared (trace out.2).
Proof.
  intros spec out.
  destruct (C1_flag_cleared_before_delegation Demo.X Demo.serviceWithMac spec []
              Demo.fresh eq_refl (or_intror eq_refl))
    as (_ & _ & Hflag & _ & Hall & _).
  split; [reflexivity |]. split; [reflexivity |]. split; [exact Hflag | exact Hall].
Defined.

(** C3 at work: a linux/amd64 build on the linux/amd64 host. *)
Lemma C3_witness :
  let spec := Demo.spec Demo.linuxAmd64 false in
  let tr := trace (run (Build Demo.X Demo.service spec []) Demo.fresh).2 in
  sameRuntime (Runtime (cfg Demo.service)) (build.GoRuntime (build.Go (initialised Demo.X spec [])))
  ∧ build.EnsureTheSameOs (build.Go (initialised Demo.X spec [])) = false
  ∧ Forall (fun e => delegationCall e = false) tr.
Proof.
  intros spec tr.
  destruct (C3_matching_runtime_builds_locally Demo.X Demo.service spec [] Demo.fresh
              (conj eq_refl eq_refl) eq_refl)
    as (_ & Hall & _).
  split; [split; reflexivity |]. split; [reflexivity | exact Hall].
Defined.

(** C4 at work: a windows build where the only delegation serves darwin. *)
Lemma C4_witness :
  let spec := Demo.spec Demo.windowsAmd64 false in
  let requested := build.GoRuntime (build.Go (initialised Demo.X spec [])) in
  Build_Validate _ Demo.X (initialised Demo.X spec []) = None
  ∧ ¬ sameRuntime (Runtime (cfg Demo.serviceWithMac)) requested
  ∧ Forall (fun d => Matches d requested = false) (delegations (cfg Demo.serviceWithMac))
  ∧ ∃ mismatch : build.error,
      run (Build Demo.X Demo.serviceWithMac spec []) Demo.fresh
      = ((build.setEnsureTheSameOs false (initialised Demo.X spec []),
          (None, Some mismatch)),
         {| world := Demo.fresh; trace := [EvMatch requested] |}).
Proof.
  intros spec requested.
  assert (¬ sameRuntime (Runtime (cfg Demo.serviceWithMac)) requested) as Hdiffer.
  { intros [Hos _]. vm_compute in Hos. discriminate Hos. }
  assert (Forall (fun d => Matches d requested = false)
            (delegations (cfg Demo.serviceWithMac))) as Hnone.
  { constructor; [reflexivity | constructor]. }
  destruct (C4_mismatch_without_delegation_fails Demo.X Demo.serviceWithMac spec []
              Demo.fresh eq_refl Hdiffer Hnone)
    as (mismatch & _ & Hrun & _).
  split; [reflexivity |]. split; [exact Hdiffer |]. split; [exact Hnone |].
  exists mismatch. exact Hrun.
Defined.

(** C5 as stated fails: with the network down the first call cannot fetch the
    toolchain, and the second call creates the directory and fetches again. *)
Lemma C5_counterexample_failed_fetch_is_repeated :
  let spec := Demo.spec Demo.linuxAmd64 false in
  let tr := trace (run (ensureGoTwice Demo.X Demo.service Demo.snapshot spec) Demo.offline).2 in
  count isMkdirAll tr = 2
  ∧ count isCopy tr = 2
  ∧ ¬ installsAtMostOnce Demo.X Demo.service Demo.snapshot spec Demo.offline.
Proof.
  intros spec tr. split; [reflexivity |]. split; [reflexivity |].
  unfold installsAtMostOnce. fold spec. fold tr.
  change (count isMkdirAll tr) with 2. lia.
Qed.

(** C5 at work: on a host with network, the first call installs the toolchain
    and the second finds it. *)
Lemma C5_witness :
  let spec := Demo.spec Demo.linuxAmd64 false in
  let version := build.Version (build.GoRuntime (build.Go spec)) in
  let bin := path_Join _ Demo.X [path_Join _ Demo.X [GoDir Demo.snapshot; "go" +:+ version]; "go"] in
  let first := run (ensureGo Demo.X Demo.service Demo.snapshot version (Logf spec)) Demo.fresh in
  (fs_Exists _ Demo.X (world first.2) bin).1 = true
  ∧ installsAtMostOnce Demo.X Demo.service Demo.snapshot spec Demo.fresh.
Proof.
  intros spec version bin first.
  destruct (C5_ensureGo_idempotent_once_installed Demo.X Demo.service Demo.snapshot spec
              Demo.fresh eq_refl)
    as (_ & _ & Honce).
  split; [reflexivity | exact Honce].
Defined.

(** C6 at work: [cmd/main.go] of the demo bundle, in plugin mode. *)
Lemma C6_witness :
  let e := Demo.mainEntry in
  let out := processSource Demo.X (content e) (parent e) (info e) Demo.snapshot true
               {| world := Demo.fresh; trace := [] |} in
  failure (content e) = None
  ∧ (Snapshot_replaceDependencies _ Demo.X Demo.snapshot (pending (content e))).2 = None
  ∧ Contains (Snapshot_replaceDependencies _ Demo.X Demo.snapshot (pending (content e))).1
      mainFragment = true
  ∧ "cmd/main.go" ∈ Mains out.1.1.
Proof.
  intros e out.
  destruct (C6_entry_point_is_recorded Demo.X (content e) (parent e) (info e) Demo.snapshot
              true {| world := Demo.fresh; trace := [] |} eq_refl eq_refl eq_refl)
    as (_ & Hin & _).
  split; [reflexivity |]. split; [reflexivity |]. split; [reflexivity | exact Hin].
Defined.

(** C7 at work: [cmd/main.go] in a mode other than plugin. *)
Lemma C7_witness :
  let e := Demo.mainEntry in
  let out := onFile Demo.X Demo.service "exec" (parent e) (info e) (content e) Demo.snapshot
               {| world := Demo.fresh; trace := [] |} in
  failure (content e) = None
  ∧ sourceExt (FileName (info e))
  ∧ "exec" ≠ "plugin"
  ∧ out.1 = (AppendMain "cmd/main.go" Demo.snapshot, (info e, NewReader Demo.mainGo, None))
  ∧ trace out.2 = [].
Proof.
  intros e out.
  assert (sourceExt (FileName (info e))) as Hext by (by left).
  destruct (C7_rewrite_iff_source_file_in_plugin_mode Demo.X Demo.service "exec"
              (parent e) (info e) (content e) Demo.snapshot
              {| world := Demo.fresh; trace := [] |} eq_refl)
    as (_ & _ & Hother).
  assert ("exec" ≠ "plugin") as Hmode by discriminate.
  split; [reflexivity |]. split; [exact Hext |]. split; [exact Hmode |].
  split; [exact (Hother Hext Hmode) | reflexivity].
Defined.

(** C8 at work: the spec's [GOFLAGS] after the snapshot's two entries. *)
Lemma C8_witness :
  let spec := Demo.spec Demo.linuxAmd64 false in
  let pairs := build.Env (build.Go spec) in
  map_range _ Demo.X pairs ≡ₚ map_to_list pairs
  ∧ appendEnv Demo.X pairs (Snapshot_Env _ Demo.X Demo.snapshot)
    = ["GOROOT=/opt/go"; "GO111MODULE=on"; "GOFLAGS=-mod=mod"]
  ∧ lookupEnv (appendEnv Demo.X pairs (Snapshot_Env _ Demo.X Demo.snapshot)) "GOFLAGS"
    = Some "-mod=mod".
Proof.
  intros spec pairs.
  assert (map_range _ Demo.X pairs ≡ₚ map_to_list pairs) as Hrange by reflexivity.
  destruct (C8_explicit_variables_appended_last Demo.X Demo.snapshot spec Demo.fresh Hrange)
    as (Henv & _ & _ & _ & _ & Hlookup & _).
  split; [exact Hrange |]. split; [exact Henv |].
  apply Hlookup; reflexivity.
Defined.

(** C9 at work: a spec without a name. *)
Lemma C9_witness :
  Build_Validate _ Demo.X (initialised Demo.X Demo.unnamed []) = Some "name was empty"
  ∧ run (Build Demo.X Demo.service Demo.unnamed []) Demo.fresh
    = ((Demo.unnamed, (None, Some "name was empty")),
       {| world := Demo.fresh; trace := [] |}).
Proof.
  destruct (C9_validation_failure_is_terminal Demo.X Demo.P Demo.service Demo.unnamed []
              "name was empty" Demo.fresh eq_refl)
    as (Hrun & _).
  split; [reflexivity | exact Hrun].
Defined.

(** C10 at work: [README.md] of the demo bundle. *)
Lemma C10_witness :
  let e := Demo.readmeEntry in
  let st := {| world := Demo.fresh; trace := [] |} in
  ¬ sourceExt (FileName (info e))
  ∧ onFile Demo.X Demo.service "plugin" (parent e) (info e) (content e) Demo.snapshot st
    = ((Demo.snapshot, (info e, content e, None)), st).
Proof.
  intros e st.
  assert (¬ sourceExt (FileName (info e))) as Hext.
  { unfold sourceExt. intros Hin.
    repeat (apply elem_of_cons in Hin as [Hin | Hin]; [discriminate Hin |]).
    by apply elem_of_nil in Hin. }
  destruct (C10_other_files_pass_through Demo.X Demo.service "plugin" "/tmp/plugin" e
              Demo.snapshot st Hext)
    as (Hcallback & _).
  split; [exact Hext | exact Hcallback].
Defined.

(** * Further properties of the builder *)

Import more.

(** ** Two more logics: what is returned, how often a call is made *)

Section ReturnLogic.
Context {W : Type}.

Lemma returns_ret {A} (Q : A -> Prop) (a : A) : Q a -> returns (W:=W) Q (ret a).
Proof. intros Ha st. exact Ha. Qed.

Lemma returns_bind {A B} (R : A -> Prop) (Q : B -> Prop) (m : M W A) (k : A -> M W B) :
  returns R m -> (∀ a, R a -> returns Q (k a)) -> returns Q (bind m k).
Proof.
  intros Hm Hk st. unfold bind. specialize (Hm st).
  destruct (m st) as [a st1]. exact (Hk a Hm st1).
Qed.

Lemma returns_any {A} (m : M W A) : returns (fun _ => True) m.
Proof. by intros st. Qed.

Lemma atMost_emits {A} (p : Event -> bool) (m : M W A) :
  emits (fun e => p e = false) m -> atMost p 0 m.
Proof.
  intros Hm st. destruct (Hm st) as (evs & E & F). exists evs. split; [done |].
  clear E. unfold count. induction F as [| e evs He _ IH]; simpl; [done |].
  by rewrite He.
Qed.

Lemma atMost_bind {A B} (p : Event -> bool) (a b : nat) (m : M W A) (k : A -> M W B) :
  atMost p a m -> (∀ x, atMost p b (k x)) -> atMost p (a + b) (bind m k).
Proof.
  intros Hm Hk st. unfold bind.
  destruct (Hm st) as (evs1 & E1 & C1).
  destruct (m st) as [x st1]. simpl in E1.
  destruct (Hk x st1) as (evs2 & E2 & C2).
  exists (evs1 ++ evs2)%list. split.
  - by rewrite E2, E1, List.app_assoc.
  - unfold count in *. rewrite List.filter_app, length_app. lia.
Qed.

Lemma atMost_weaken {A} (p : Event -> bool) (a b : nat) (m : M W A) :
  (a ≤ b)%nat -> atMost p a m -> atMost p b m.
Proof.
  intros Hab Hm st. destruct (Hm st) as (evs & E & C). exists evs. split; [done | lia].
Qed.

Lemma atMost_emit (p : Event -> bool) (e : Event) : atMost (W:=W) p 1 (emit e).
Proof.
  intros st. exists [e]. split; [done |]. unfold count. simpl. destruct (p e); simpl; lia.
Qed.

Lemma atMost_ret {A} (p : Event -> bool) (n : nat) (a : A) : atMost (W:=W) p n (ret a).
Proof. intros st. exists []. split; [by rewrite app_nil_r | unfold count; simpl; lia]. Qed.

Lemma atMost_run {A} (p : Event -> bool) (n : nat) (m : M W A) (w : W) :
  atMost p n m -> (count p (trace (run m w).2) ≤ n)%nat.
Proof.
  intros Hm. destruct (Hm {| world := w; trace := [] |}) as (evs & E & C).
  unfold run. by rewrite E.
Qed.

End ReturnLogic.

Ltac returns_step :=
  lazymatch goal with
  | |- returns _ (ret _) => apply returns_ret
  | |- returns _ (bind _ _) => eapply returns_bind; [apply returns_any | intros ? _]
  | |- returns _ (match ?x with _ => _ end) => destruct x
  | |- returns _ (let _ := _ in _) => cbv zeta
  end.

Section StageLogic.
Context {W : Type}.

Lemma segment_emits {A} (P : Event -> Prop) (m : M W A) :
  emits P m -> segment (Forall P) m.
Proof. intros Hm st. exact (Hm st). Qed.

Lemma segment_impl {A} (S T : list Event -> Prop) (m : M W A) :
  (∀ evs, S evs -> T evs) -> segment S m -> segment T m.
Proof.
  intros HST Hm st. destruct (Hm st) as (evs & E & HS). exists evs. eauto.
Qed.

Lemma segment_and {A} (S T : list Event -> Prop) (m : M W A) :
  segment S m -> segment T m -> segment (fun evs => S evs ∧ T evs) m.
Proof.
  intros HS HT st. destruct (HS st) as (evs & E & Hs). destruct (HT st) as (evs' & E' & Ht).
  assert (evs' = evs) as -> by (rewrite E in E'; by apply app_inv_head in E').
  exists evs. eauto.
Qed.

Lemma segment_ask {A} (f : W -> A) : segment (fun evs => evs = []) (ask f).
Proof. intros st. exists []. by rewrite app_nil_r. Qed.

Lemma segment_emit (e : Event) : segment (W:=W) (fun evs => evs = [e]) (emit e).
Proof. intros st. by exists [e]. Qed.

Lemma phased_nil (Ss : list (list Event -> Prop)) :
  Forall (fun S => S []) Ss -> phased Ss [].
Proof.
  induction 1 as [| S Ss HS _ IH]; simpl; [done |].
  exists [], []. eauto.
Qed.

Lemma phases_ret {A} (Ss : list (list Event -> Prop)) (a : A) :
  Forall (fun S => S []) Ss -> phases (W:=W) Ss (ret a).
Proof.
  intros Hnil st. exists []. split; [by rewrite app_nil_r | by apply phased_nil].
Qed.

Lemma phases_seq {A B} (S : list Event -> Prop) (Ss : list (list Event -> Prop))
    (m : M W A) (k : A -> M W B) :
  segment S m -> (∀ x, phases Ss (k x)) -> phases (S :: Ss) (bind m k).
Proof.
  intros Hm Hk st. unfold bind.
  destruct (Hm st) as (now & E1 & HS).
  destruct (m st) as [x st1]. simpl in E1.
  destruct (Hk x st1) as (later & E2 & Hlater).
  exists (now ++ later)%list. split.
  - by rewrite E2, E1, List.app_assoc.
  - simpl. exists now, later. eauto.
Qed.

Lemma phases_silent {A B} (Ss : list (list Event -> Prop)) (m : M W A) (k : A -> M W B) :
  segment (fun evs => evs = []) m -> (∀ x, phases Ss (k x)) -> phases Ss (bind m k).
Proof.
  intros Hm Hk st. unfold bind.
  destruct (Hm st) as (now & E1 & ->). rewrite app_nil_r in E1.
  destruct (m st) as [x st1]. simpl in E1.
  destruct (Hk x st1) as (later & E2 & Hlater).
  exists later. by rewrite E2, E1.
Qed.

Lemma phases_last {A} (S : list Event -> Prop) (m : M W A) :
  segment S m -> phases [S] m.
Proof.
  intros Hm st. destruct (Hm st) as (evs & E & HS). exists evs. split; [done |].
  simpl. exists evs, []. by rewrite app_nil_r.
Qed.

End StageLogic.

(** ** What each function of the builder may call *)

Section Footprints.
Context {W : Type} (X : Collaborators W).

Lemma ensureGo_footprint (s : Service) (snapshot : Snapshot) (version : string)
    (spec : build.Build) :
  emits (fun e => toolchainCall e = true) (ensureGo X s snapshot version (Logf spec)).
Proof. unfold ensureGo. emits_zeta. Qed.

Lemma processSource_footprint (reader : Reader) (parent : string) (fi : FileInfo)
    (snapshot : Snapshot) (replace : bool) :
  emits (fun e => unpackCall e = true) (processSource X reader parent fi snapshot replace).
Proof. unfold processSource. emits_zeta. Qed.

Lemma onFile_footprint (s : Service) (buildMode parent : string) (fi : FileInfo)
    (reader : Reader) (snapshot : Snapshot) :
  emits (fun e => unpackCall e = true) (onFile X s buildMode parent fi reader snapshot).
Proof.
  unfold onFile. cbv zeta. case_bool_decide;
    [apply processSource_footprint | apply emits_ret].
Qed.

Lemma unpackEntries_footprint (s : Service) (buildMode dest : string) (entries : list Entry) :
  ∀ snapshot,
    emits (fun e => unpackCall e = true)
      (unpackEntries X dest AppendMod (onFile X s buildMode) entries snapshot).
Proof.
  induction entries as [| e rest IH]; intros snapshot; simpl; [apply emits_ret |].
  apply emits_bind.
  - unfold unpackEntry. cbv zeta. apply emits_bind; [apply onFile_footprint |].
    intros [snapshot' [[info' reader'] err]]. emits_zeta.
  - intros [snapshot' [err|]]; [apply emits_ret | apply IH].
Qed.

Lemma Source_Unpack_footprint (s : Service) (buildMode dest : string)
    (source : build.Source) (snapshot : Snapshot) :
  emits (fun e => unpackCall e = true)
    (Source_Unpack X source dest AppendMod (onFile X s buildMode) snapshot).
Proof.
  unfold Source_Unpack.
  emits_with ltac:(apply unpackEntries_footprint).
Qed.

Lemma build_footprint (snapshot : Snapshot) (buildSpec : build.Build) :
  emits (fun e => compileCall e = true) (build X snapshot buildSpec).
Proof. unfold build. emits_zeta. Qed.

Lemma build_one_command (snapshot : Snapshot) (buildSpec : build.Build) :
  segment (fun evs => count isCommand evs = 1) (build X snapshot buildSpec).
Proof.
  intros st. unfold build.
  destruct (Snapshot_buildCmdArgs W X snapshot buildSpec) as [cmd args].
  cbv zeta. unfold Logf, bind, emit, ask, act, ret. cbn [world trace].
  destruct (exec_CombinedOutput W X (world st) _) as [[output [err|]] w'];
    cbn [world trace snd]; eexists; rewrite <- !List.app_assoc;
    (split; [reflexivity | reflexivity]).
Qed.

Lemma ensureGo_segment (s : Service) (snapshot : Snapshot) (version : string)
    (spec : build.Build) :
  segment toolchainSeg (ensureGo X s snapshot version (Logf spec)).
Proof.
  unfold toolchainSeg. apply segment_and; [apply segment_emits, ensureGo_footprint |].
  intros st. exact (ensureGo_once X s snapshot version spec st).
Qed.

Lemma build_segment (snapshot : Snapshot) (buildSpec : build.Build) :
  segment compileSeg (build X snapshot buildSpec).
Proof.
  unfold compileSeg. apply segment_and; [apply segment_emits, build_footprint |].
  eapply segment_impl; [| apply build_one_command]. intros evs ->. simpl. lia.
Qed.

Lemma ensureDocker_not_local (s : Service) (d : Delegation) (spec : build.Build) :
  emits (fun e => localCall e = false) (ensureDocker X s d spec).
Proof. unfold ensureDocker. emits_zeta. Qed.

Lemma delegateBuildOrFail_not_local (s : Service) (spec : build.Build) (err : option error) :
  emits (fun e => localCall e = false) (delegateBuildOrFail X s spec err).
Proof.
  unfold delegateBuildOrFail. cbv zeta.
  emits_with ltac:(apply ensureDocker_not_local).
Qed.

(** the local part of [Build], lines 37-82, as the code reaches it *)
Lemma Build_local_unfold (s : Service) (buildSpec : build.Build) (opts : list build.Option) :
  let spec0 := initialised X buildSpec opts in
  Build_Validate _ X spec0 = None ->
  sameRuntime (Runtime (cfg s)) (build.GoRuntime (build.Go spec0)) ->
  build.EnsureTheSameOs (build.Go spec0) = false ->
  ∃ tail,
    Build X s buildSpec opts
    = bind (if decide (length (build.Data (build.BuildSource spec0)) = 0)
            then bind (emit (EvPack (build.BuildSource spec0)))
                   (fun _ => bind (act (fun w => Source_Pack _ X w (build.BuildSource spec0)))
                     (fun x => match x with
                               | (packed, err) => ret (build.setSource packed spec0, err)
                               end))
            else ret (spec0, None)) tail
    ∧ (∀ spec1 err, tail (spec1, Some err) = ret (spec1, (None, Some err)))
    ∧ (∀ spec1,
         phases [snapshotSeg; toolchainSeg; unpackSeg; compileSeg; downloadSeg]
           (tail (spec1, None)))
    ∧ (∀ spec1,
         build.Name spec1 = build.Name spec0 -> build.Go spec1 = build.Go spec0 ->
         returns (fun r =>
             build.Name r.1 = build.Name spec0 ∧ build.Go r.1 = build.Go spec0
             ∧ ((∃ e, r.2 = (None, Some e))
                ∨ (∃ m, r.2 = (Some m, None)
                        ∧ build.InfoName (build.ModuleInfo m) = build.Name spec0
                        ∧ build.InfoRuntime (build.ModuleInfo m)
                          = build.GoRuntime (build.Go spec0))))
             (tail (spec1, None))).
Proof.
  intros spec0 Hvalid Hsame Hflag. unfold Build.
  fold (initialised X buildSpec opts). fold spec0.
  rewrite Hvalid, (ValidateOsAndArch_same _ _ Hsame), Hflag.
  rewrite bool_decide_eq_false_2 by (intros Hne; by apply Hne).
  cbn [orb]. eexists. split; [reflexivity |]. split; [done |].
  assert (Forall (fun S : list Event -> Prop => S [])
            [snapshotSeg; toolchainSeg; unpackSeg; compileSeg; downloadSeg]) as Hnil.
  { repeat constructor; unfold count; simpl; lia. }
  split; [intros spec1 | intros spec1 Hname Hgo]; cbv beta iota;
    destruct (Build_GetModeWithSpec W X spec1) as [buildMode spec].
  - apply phases_seq.
    { eapply segment_impl; [| apply segment_emit]. intros evs ->. right. eauto. }
    intros _. apply phases_silent; [apply segment_ask |]. intros snapshot.
    apply phases_seq; [apply ensureGo_segment |].
    inversion_clear Hnil as [| ? ? _ Hnil1]. inversion_clear Hnil1 as [| ? ? _ Hnil2].
    intros [err|]; [by apply phases_ret |].
    apply phases_seq; [apply segment_emits, Source_Unpack_footprint |].
    inversion_clear Hnil2 as [| ? ? _ Hnil3].
    intros [snapshot' [err|]]; [by apply phases_ret |].
    apply phases_seq; [apply build_segment |].
    inversion_clear Hnil3 as [| ? ? _ Hnil4].
    intros [err|]; [by apply phases_ret |].
    apply phases_last. intros st. unfold bind, emit, ask, ret. cbn [world trace].
    destruct (fs_DownloadWithURL W X (world st) (PluginDestPath snapshot')) as [data [err|]];
      cbn [snd trace]; eexists; (split; [reflexivity | right; eauto]).
  - repeat returns_step; cbn [fst snd]; (split; [done |]); (split; [done |]);
      [eauto .. |].
    right. eexists. split; [reflexivity |]. cbn. by rewrite Hname, Hgo.
Qed.

End Footprints.

(** ** The local path as a whole *)

Section LocalBuild.
Context {W : Type} (X : Collaborators W).

Lemma pack_segment (spec0 : build.Build) :
  segment (packSeg (build.BuildSource spec0))
    (if decide (length (build.Data (build.BuildSource spec0)) = 0)
     then bind (emit (EvPack (build.BuildSource spec0)))
            (fun _ => bind (act (fun w => Source_Pack _ X w (build.BuildSource spec0)))
              (fun x => match x with
                        | (packed, err) => ret (build.setSource packed spec0, err)
                        end))
     else ret (spec0, None)).
Proof.
  intros st. destruct (decide _).
  - unfold bind, emit, act, ret. cbn [world trace].
    destruct (Source_Pack W X (world st) _) as [[packed err] w']. cbn [snd trace].
    eexists. split; [reflexivity | by right].
  - exists []. split; [by rewrite app_nil_r | by left].
Qed.

Lemma phased_Forall (P : Event -> Prop) (Ss : list (list Event -> Prop)) :
  Forall (fun S => ∀ evs, S evs -> Forall P evs) Ss ->
  ∀ tr, phased Ss tr -> Forall P tr.
Proof.
  induction 1 as [| S Ss HS _ IH]; simpl; intros tr.
  - by intros ->.
  - intros (now & later & -> & Hnow & Hlater). apply Forall_app. eauto.
Qed.

(** X1.  On the local path -- requested runtime equal to the host's, flag not
    set -- [Build] returns a module with a nil error or a nil module with an
    error, never both and never neither. *)
Theorem Build_local_returns_module_or_error
    (s : Service) (buildSpec : build.Build) (opts : list build.Option) (w : W) :
  let spec0 := initialised X buildSpec opts in
  let res := (run (Build X s buildSpec opts) w).1.2 in
  sameRuntime (Runtime (cfg s)) (build.GoRuntime (build.Go spec0)) ->
  build.EnsureTheSameOs (build.Go spec0) = false ->
  (∃ m, res = (Some m, None)) ∨ (∃ e, res = (None, Some e)).
Proof.
  intros spec0 res Hsame Hflag. unfold res, run.
  destruct (Build_Validate W X spec0) as [invalid|] eqn:Hvalid.
  { rewrite (Build_invalid X s buildSpec opts invalid Hvalid). right. by eexists. }
  destruct (Build_local_unfold X s buildSpec opts Hvalid Hsame Hflag)
    as (tail & -> & Herr & _ & Hret).
  fold spec0 in Herr, Hret |- *.
  set (Q := fun r : build.Build * (option build.Module_ * option error) =>
              (∃ m, r.2 = (Some m, None)) ∨ (∃ e, r.2 = (None, Some e))).
  assert (returns Q
            (bind (if decide (length (build.Data (build.BuildSource spec0)) = 0)
                   then bind (emit (EvPack (build.BuildSource spec0)))
                          (fun _ => bind (act (fun w => Source_Pack _ X w
                                                          (build.BuildSource spec0)))
                            (fun x => match x with
                                      | (packed, err) =>
                                          ret (build.setSource packed spec0, err)
                                      end))
                   else ret (spec0, None)) tail)) as Hall.
  { apply (returns_bind
             (fun x => build.Name x.1 = build.Name spec0 ∧ build.Go x.1 = build.Go spec0)).
    - destruct (decide _); repeat returns_step; done.
    - intros [spec1 [err|]] [Hname Hgo]; simpl in Hname, Hgo.
      + rewrite Herr. apply returns_ret. right. by eexists.
      + intros st. destruct (Hret spec1 Hname Hgo st) as (_ & _ & [[e He] | (m & Hm & _)]).
        * right. eauto.
        * left. eauto. }
  exact (Hall {| world := w; trace := [] |}).
Qed.

(** X2.  On the local path [Build] leaves the name and the Go settings of the
    spec as they were initialised (only the source may change, by packing),
    and a module it returns carries that name and the requested runtime. *)
Theorem Build_local_module_carries_spec
    (s : Service) (buildSpec : build.Build) (opts : list build.Option) (w : W) :
  let spec0 := initialised X buildSpec opts in
  let out := (run (Build X s buildSpec opts) w).1 in
  sameRuntime (Runtime (cfg s)) (build.GoRuntime (build.Go spec0)) ->
  build.EnsureTheSameOs (build.Go spec0) = false ->
  build.Name out.1 = build.Name spec0
  ∧ build.Go out.1 = build.Go spec0
  ∧ (∀ m, out.2.1 = Some m ->
       build.InfoName (build.ModuleInfo m) = build.Name spec0
       ∧ build.InfoRuntime (build.ModuleInfo m) = build.GoRuntime (build.Go spec0)).
Proof.
  intros spec0 out Hsame Hflag. unfold out, run.
  destruct (Build_Validate W X spec0) as [invalid|] eqn:Hvalid.
  { rewrite (Build_invalid X s buildSpec opts invalid Hvalid). simpl.
    split; [done |]. split; [done |]. by intros m. }
  destruct (Build_local_unfold X s buildSpec opts Hvalid Hsame Hflag)
    as (tail & -> & Herr & _ & Hret).
  fold spec0 in Herr, Hret |- *.
  set (Q := fun r : build.Build * (option build.Module_ * option error) =>
              build.Name r.1 = build.Name spec0
              ∧ build.Go r.1 = build.Go spec0
              ∧ (∀ m, r.2.1 = Some m ->
                   build.InfoName (build.ModuleInfo m) = build.Name spec0
                   ∧ build.InfoRuntime (build.ModuleInfo m)
                     = build.GoRuntime (build.Go spec0))).
  assert (returns Q
            (bind (if decide (length (build.Data (build.BuildSource spec0)) = 0)
                   then bind (emit (EvPack (build.BuildSource spec0)))
                          (fun _ => bind (act (fun w => Source_Pack _ X w
                                                          (build.BuildSource spec0)))
                            (fun x => match x with
                                      | (packed, err) =>
                                          ret (build.setSource packed spec0, err)
                                      end))
                   else ret (spec0, None)) tail)) as Hall.
  { apply (returns_bind
             (fun x => build.Name x.1 = build.Name spec0 ∧ build.Go x.1 = build.Go spec0)).
    - destruct (decide _); repeat returns_step; done.
    - intros [spec1 [err|]] [Hname Hgo]; simpl in Hname, Hgo.
      + rewrite Herr. apply returns_ret. unfold Q. simpl.
        split; [done |]. split; [done |]. by intros m.
      + intros st. destruct (Hret spec1 Hname Hgo st) as (Hn & Hg & Hres).
        split; [done |]. split; [done |]. intros m Hm.
        destruct Hres as [[e He] | (m' & Hm' & Hinfo)].
        * rewrite He in Hm. discriminate Hm.
        * rewrite Hm' in Hm. simpl in Hm. injection Hm as <-. exact Hinfo. }
  exact (Hall {| world := w; trace := [] |}).
Qed.

(** the stages of the local path, as segments of the trace *)
Lemma Build_local_phases
    (s : Service) (buildSpec : build.Build) (opts : list build.Option) (w : W) :
  let spec0 := initialised X buildSpec opts in
  sameRuntime (Runtime (cfg s)) (build.GoRuntime (build.Go spec0)) ->
  build.EnsureTheSameOs (build.Go spec0) = false ->
  phased (localStages (build.BuildSource spec0)) (trace (run (Build X s buildSpec opts) w).2).
Proof.
  intros spec0 Hsame Hflag.
  assert (Forall (fun S : list Event -> Prop => S [])
            (localStages (build.BuildSource spec0))) as Hnil.
  { repeat constructor; unfold count; simpl; lia. }
  assert (phases (localStages (build.BuildSource spec0)) (Build X s buildSpec opts)) as Hall.
  { destruct (Build_Validate W X spec0) as [invalid|] eqn:Hvalid.
    { rewrite (Build_invalid X s buildSpec opts invalid Hvalid). by apply phases_ret. }
    destruct (Build_local_unfold X s buildSpec opts Hvalid Hsame Hflag)
      as (tail & -> & Herr & Hphases & _).
    fold spec0 in Herr, Hphases |- *.
    apply phases_seq; [apply pack_segment |].
    intros [spec1 [err|]]; [| apply Hphases].
    rewrite Herr. apply phases_ret. by inversion_clear Hnil. }
  destruct (Hall {| world := w; trace := [] |}) as (evs & E & Hevs).
  unfold run. by rewrite E.
Qed.

(** X3.  The local path runs its stages in order, each once at most: packing
    (one call, of the spec's source), the snapshot, the toolchain (at most one
    directory creation and one fetch), unpacking, the compiler (at most one
    invocation), the retrieval of the artifact (one download).  A stage is
    never re-entered once a later one has begun. *)
Theorem Build_local_stages_in_order
    (s : Service) (buildSpec : build.Build) (opts : list build.Option) (w : W) :
  let spec0 := initialised X buildSpec opts in
  sameRuntime (Runtime (cfg s)) (build.GoRuntime (build.Go spec0)) ->
  build.EnsureTheSameOs (build.Go spec0) = false ->
  phased (localStages (build.BuildSource spec0)) (trace (run (Build X s buildSpec opts) w).2).
Proof. intros spec0 Hsame Hflag. by apply Build_local_phases. Qed.

End LocalBuild.

(** ** Every path of [Build] *)

Section EveryPath.
Context {W : Type} (X : Collaborators W).

Lemma count_none (p : Event -> bool) (evs : list Event) :
  Forall (fun e => p e = false) evs -> count p evs = 0.
Proof.
  unfold count. induction 1 as [| e evs He _ IH]; simpl; [done |]. by rewrite He.
Qed.

Lemma count_of_kind (p q : Event -> bool) (evs : list Event) :
  (∀ e, q e = true -> p e = false) -> Forall (fun e => q e = true) evs -> count p evs = 0.
Proof.
  intros Hqp Hq. apply count_none. eapply Forall_impl; [exact Hq |]. exact Hqp.
Qed.

(** the three ways through [Build] *)
Lemma Build_paths (s : Service) (buildSpec : build.Build) (opts : list build.Option) :
  let spec0 := initialised X buildSpec opts in
  let err := build.ValidateOsAndArch (Runtime (cfg s)) (build.GoRuntime (build.Go spec0)) in
  (∃ invalid, Build X s buildSpec opts = ret (spec0, (None, Some invalid)))
  ∨ Build X s buildSpec opts = delegateBuildOrFail X s spec0 err
  ∨ (sameRuntime (Runtime (cfg s)) (build.GoRuntime (build.Go spec0))
     ∧ build.EnsureTheSameOs (build.Go spec0) = false).
Proof.
  intros spec0 err.
  destruct (Build_Validate W X spec0) as [invalid|] eqn:Hvalid.
  { left. exists invalid. by apply Build_invalid. }
  destruct (decide (sameRuntime (Runtime (cfg s)) (build.GoRuntime (build.Go spec0))))
    as [Hsame | Hdiffer].
  - destruct (build.EnsureTheSameOs (build.Go spec0)) eqn:Hflag.
    + right. left. apply (Build_delegates X s buildSpec opts Hvalid). by right.
    + right. right. done.
  - right. left. apply (Build_delegates X s buildSpec opts Hvalid). left.
    by apply ValidateOsAndArch_differ.
Qed.

(** X4.  A build that is delegated -- the spec is valid, and the runtime check
    failed or the flag is set -- performs no step of the local build: no
    packing, no snapshot, no toolchain check or install, no unpacking, no
    compiler run, no artifact download. *)
Theorem Build_delegated_makes_no_local_call
    (s : Service) (buildSpec : build.Build) (opts : list build.Option) (w : W) :
  let spec0 := initialised X buildSpec opts in
  Build_Validate _ X spec0 = None ->
  ¬ sameRuntime (Runtime (cfg s)) (build.GoRuntime (build.Go spec0))
  ∨ build.EnsureTheSameOs (build.Go spec0) = true ->
  Forall (fun e => localCall e = false) (trace (run (Build X s buildSpec opts) w).2).
Proof.
  intros spec0 Hvalid Hdecide.
  rewrite (Build_delegates X s buildSpec opts Hvalid).
  - apply emits_run, delegateBuildOrFail_not_local.
  - destruct Hdecide as [Hdiffer | Hflag]; [left | by right].
    by apply ValidateOsAndArch_differ.
Qed.

(** a bundle that carries data is not packed, on any path *)
Lemma Build_packed_is_not_packed
    (s : Service) (buildSpec : build.Build) (opts : list build.Option) (w : W) :
  build.Data (build.BuildSource (initialised X buildSpec opts)) ≠ [] ->
  Forall (fun e => isPack e = false) (trace (run (Build X s buildSpec opts) w).2).
Proof.
  intros Hdata. set (spec0 := initialised X buildSpec opts) in *.
  destruct (Build_paths s buildSpec opts) as [[invalid Hrun] | [Hrun | [Hsame Hflag]]].
  - rewrite Hrun. constructor.
  - rewrite Hrun. eapply Forall_impl.
    + apply emits_run, delegateBuildOrFail_not_local.
    + by intros [].
  - destruct (Build_Validate W X spec0) as [invalid|] eqn:Hvalid.
    { rewrite (Build_invalid X s buildSpec opts invalid Hvalid). constructor. }
    destruct (Build_local_unfold X s buildSpec opts Hvalid Hsame Hflag)
      as (tail & -> & _ & Hphases & _).
    fold spec0 in Hphases |- *.
    rewrite decide_False by (by destruct (build.Data (build.BuildSource spec0))).
    destruct (Hphases spec0 {| world := w; trace := [] |}) as (evs & E & Hevs).
    unfold run, bind, ret. rewrite E. cbn [trace app].
    revert Hevs. apply phased_Forall. repeat constructor.
    + intros ? [-> | (? & ? & ? & ->)]; by repeat constructor.
    + intros ? (Hkind & _). eapply Forall_impl; [exact Hkind |]. by intros [].
    + intros ? Hkind. eapply Forall_impl; [exact Hkind |]. by intros [].
    + intros ? (Hkind & _). eapply Forall_impl; [exact Hkind |]. by intros [].
    + intros ? [-> | (? & ->)]; by repeat constructor.
Qed.

(** X5.  Whatever the spec and whatever path is taken, one call of [Build]
    packs the source at most once, creates at most one snapshot, runs the
    compiler at most once and downloads the artifact at most once; and a
    bundle that already carries data is never packed. *)
Theorem Build_never_repeats_a_step
    (s : Service) (buildSpec : build.Build) (opts : list build.Option) (w : W) :
  let spec0 := initialised X buildSpec opts in
  let tr := trace (run (Build X s buildSpec opts) w).2 in
  (count isPack tr ≤ 1)%nat
  ∧ (count isNewSnapshot tr ≤ 1)%nat
  ∧ (count isCommand tr ≤ 1)%nat
  ∧ (count isDownload tr ≤ 1)%nat
  ∧ (build.Data (build.BuildSource spec0) ≠ [] -> count isPack tr = 0).
Proof.
  intros spec0 tr.
  assert (build.Data (build.BuildSource spec0) ≠ [] -> count isPack tr = 0) as Hpacked.
  { intros Hdata. apply count_none. by apply Build_packed_is_not_packed. }
  destruct (Build_paths s buildSpec opts) as [[invalid Hrun] | [Hrun | [Hsame Hflag]]].
  - unfold tr in *. rewrite Hrun. unfold run, ret, count. simpl. repeat split; lia.
  - assert (Forall (fun e => localCall e = false) tr) as Hnone.
    { unfold tr. rewrite Hrun. apply emits_run, delegateBuildOrFail_not_local. }
    assert (∀ p : Event -> bool, (∀ e, localCall e = false -> p e = false) ->
              count p tr = 0) as Hzero.
    { intros p Hp. apply count_none. eapply Forall_impl; [exact Hnone | exact Hp]. }
    rewrite (Hzero isPack), (Hzero isNewSnapshot), (Hzero isCommand), (Hzero isDownload)
      by (by intros []).
    repeat split; lia.
  - pose proof (Build_local_phases X s buildSpec opts w Hsame Hflag) as Hstages.
    fold spec0 in Hstages. fold tr in Hstages.
    split; [| split; [| split; [| split; [| exact Hpacked]]]]; clear Hpacked;
      destruct Hstages as (pk & r1 & -> & Hpk & sn & r2 & -> & Hsn & tc & r3 & -> & Htc
                           & up & r4 & -> & Hup & cp & r5 & -> & Hcp
                           & dl & r6 & -> & Hdl & ->);
      destruct Htc as (Htc & _ & _); destruct Hcp as (Hcp & Hone);
      rewrite !count_app;
      [ rewrite (count_of_kind isPack toolchainCall tc), (count_of_kind isPack unpackCall up),
          (count_of_kind isPack compileCall cp) by (done || by intros [])
      | rewrite (count_of_kind isNewSnapshot toolchainCall tc),
          (count_of_kind isNewSnapshot unpackCall up),
          (count_of_kind isNewSnapshot compileCall cp) by (done || by intros [])
      | rewrite (count_of_kind isCommand toolchainCall tc),
          (count_of_kind isCommand unpackCall up) by (done || by intros [])
      | rewrite (count_of_kind isDownload toolchainCall tc),
          (count_of_kind isDownload unpackCall up),
          (count_of_kind isDownload compileCall cp) by (done || by intros []) ];
      destruct Hpk as [-> | ->]; destruct Hsn as [-> | (? & ? & ? & ->)];
      destruct Hdl as [-> | (? & ->)]; unfold count in *; simpl; lia.
Qed.

End EveryPath.

(** ** The delegation client *)

Section Delegation.
Context {W : Type} (X : Collaborators W).

(** the calls of one delegation, counted *)
Lemma delegateBuildOrFail_calls
    (s : Service) (spec : build.Build) (err : option error) (st : State W) :
  ∃ evs, trace (delegateBuildOrFail X s spec err st).2 = (trace st ++ evs)%list
         ∧ count isMatch evs = 1
         ∧ (count isIsUp evs ≤ 1)%nat
         ∧ (count isRunDocker evs ≤ 1)%nat
         ∧ (count isClientBuild evs ≤ 1)%nat
         ∧ Forall (fun e => delegationCall e = true ∨ ∃ t a, e = EvLogf t a) evs.
Proof.
  unfold delegateBuildOrFail, ensureDocker, Logf, bind, emit, ask, act, ret.
  cbv zeta. cbn [world trace].
  destruct (Match _ _) as [d|]; cbn [world trace snd].
  2: { eexists. split; [reflexivity |]. unfold count. simpl.
       repeat split; try lia.
       repeat (apply Forall_cons; split; [first [by left | right; by eauto] |]).
       constructor. }
  destruct (Client_IsUp W X (world st) (baseURL d)); cbn [world trace snd].
  - destruct (Client_Build W X _ _ _) as [[plugin e] w']. cbn [world trace snd].
    eexists. rewrite <- !List.app_assoc. split; [reflexivity |]. unfold count. simpl.
    repeat split; try lia.
    repeat (apply Forall_cons; split; [first [by left | right; by eauto] |]).
    constructor.
  - destruct (Service_runDocker W X _ _ _) as [[e|] w1]; cbn [world trace snd].
    + eexists. rewrite <- !List.app_assoc. split; [reflexivity |]. unfold count. simpl.
      repeat split; try lia.
      repeat (apply Forall_cons; split; [first [by left | right; by eauto] |]).
      constructor.
    + destruct (Client_Build W X _ _ _) as [[plugin e] w']. cbn [world trace snd].
      eexists. rewrite <- !List.app_assoc. split; [reflexivity |]. unfold count. simpl.
      repeat split; try lia.
      repeat (apply Forall_cons; split; [first [by left | right; by eauto] |]).
      constructor.
Qed.

(** X6.  One delegation is one attempt: the registry is searched exactly once,
    the liveness probe is sent at most once (it is not repeated after a
    bring-up), docker is run at most once and the remote builder receives at
    most one request. *)
Theorem delegateBuildOrFail_attempts_once
    (s : Service) (spec : build.Build) (err : option error) (st : State W) :
  ∃ evs, trace (delegateBuildOrFail X s spec err st).2 = (trace st ++ evs)%list
         ∧ count isMatch evs = 1
         ∧ (count isIsUp evs ≤ 1)%nat
         ∧ (count isRunDocker evs ≤ 1)%nat
         ∧ (count isClientBuild evs ≤ 1)%nat
         ∧ Forall (fun e => delegationCall e = true ∨ ∃ t a, e = EvLogf t a) evs.
Proof. apply delegateBuildOrFail_calls. Qed.

(** X7.  A matching delegation whose builder answers the liveness probe: docker
    is not run, the spec -- flag cleared -- is sent to the delegation's
    address, and what the remote builder answers (module and error) is what
    [delegateBuildOrFail] returns, unmodified; the error of the runtime check
    that led here is dropped. *)
Theorem delegateBuildOrFail_returns_remote_answer
    (s : Service) (spec : build.Build) (err : option error) (d : Delegation) (st : State W) :
  let cleared := build.setEnsureTheSameOs false spec in
  let remote := Client_Build _ X (world st) (baseURL d) cleared in
  Match (delegations (cfg s)) (build.GoRuntime (build.Go spec)) = Some d ->
  Client_IsUp _ X (world st) (baseURL d) = true ->
  delegateBuildOrFail X s spec err st
  = ((cleared, remote.1),
     {| world := remote.2;
        trace := trace st ++
                 [EvMatch (build.GoRuntime (build.Go spec)); EvIsUp (baseURL d);
                  EvLogf ("%v is up" +:+ nl) [DelegationName d];
                  EvClientBuild (baseURL d) cleared] |}).
Proof.
  intros cleared remote Hmatch Hup.
  unfold delegateBuildOrFail, ensureDocker, Logf, bind, emit, ask, act, ret.
  cbv zeta. cbn [world trace].
  change (build.GoRuntime (build.Go (build.setEnsureTheSameOs false spec)))
    with (build.GoRuntime (build.Go spec)).
  rewrite Hmatch. cbn [world trace]. rewrite Hup. cbn [world trace].
  fold cleared. fold remote. destruct remote as [[plugin e] w'].
  cbn [fst snd]. by rewrite <- !List.app_assoc.
Qed.

(** X8.  A matching delegation whose builder does not answer the probe: docker
    is run once.  If that fails, its error is returned with a nil module and
    nothing is sent to the remote builder; if it succeeds, the spec is sent
    without probing again and the remote answer is returned. *)
Theorem delegateBuildOrFail_brings_builder_up
    (s : Service) (spec : build.Build) (err : option error) (d : Delegation) (st : State W) :
  let cleared := build.setEnsureTheSameOs false spec in
  let docker := Service_runDocker _ X (world st) d cleared in
  let remote := Client_Build _ X docker.2 (baseURL d) cleared in
  let probed := [EvMatch (build.GoRuntime (build.Go spec)); EvIsUp (baseURL d);
                 EvRunDocker d cleared] in
  Match (delegations (cfg s)) (build.GoRuntime (build.Go spec)) = Some d ->
  Client_IsUp _ X (world st) (baseURL d) = false ->
  delegateBuildOrFail X s spec err st
  = match docker.1 with
    | Some e =>
        ((cleared, (None, Some e)),
         {| world := docker.2; trace := trace st ++ probed |})
    | None =>
        ((cleared, remote.1),
         {| world := remote.2;
            trace := trace st ++ probed ++ [EvClientBuild (baseURL d) cleared] |})
    end.
Proof.
  intros cleared docker remote probed Hmatch Hdown.
  unfold delegateBuildOrFail, ensureDocker, Logf, bind, emit, ask, act, ret.
  cbv zeta. cbn [world trace].
  change (build.GoRuntime (build.Go (build.setEnsureTheSameOs false spec)))
    with (build.GoRuntime (build.Go spec)).
  rewrite Hmatch. cbn [world trace]. rewrite Hdown. cbn [world trace].
  fold cleared. fold docker. subst remote. destruct docker as [[e|] w1]; cbn [fst snd world trace].
  - unfold probed. by rewrite <- !List.app_assoc.
  - destruct (Client_Build W X w1 (baseURL d) cleared) as [[plugin e] w'].
    cbn [fst snd world trace]. unfold probed. by rewrite <- !List.app_assoc.
Qed.

End Delegation.

(** ** Formatted text *)

Lemma append_assoc_r (a b c : string) : (a +:+ b) +:+ c = a +:+ (b +:+ c).
Proof.
  induction a as [| x a IH]; [done |].
  change (String x ((a +:+ b) +:+ c) = String x (a +:+ (b +:+ c))). by rewrite IH.
Qed.

Lemma append_cons (c : ascii) (s t : string) : String c s +:+ t = String c (s +:+ t).
Proof. reflexivity. Qed.

Lemma append_empty_l (t : string) : "" +:+ t = t.
Proof. reflexivity. Qed.

Ltac string_normal :=
  repeat first [ rewrite append_cons | rewrite append_empty_l
               | rewrite append_assoc_r | rewrite append_empty_r ].

(** the fetch address: the template filled in, its [://] turned into [:] and
    the extraction suffix added *)
Lemma fetch_address (version os arch : string) :
  Replace (Sprintf goDownloadURL [version; os; arch]) "://" ":" 1 +:+ "/tar://"
  = downloadURL version os arch.
Proof.
  unfold Replace, goDownloadURL, downloadURL.
  cbv -[String.append]. string_normal. reflexivity.
Qed.

Lemma compile_failure_text (err dir line : string) (output : bytes) :
  Sprintf ("couldn't generate plugin due to the: %w at: %s" +:+ nl +:+ tab +:+
           "stdin: %s" +:+ nl +:+ tab +:+ "stdount: %s")
    [err; dir; line; String.string_of_list_byte output]
  = compileFailure err dir line output.
Proof.
  unfold compileFailure. generalize (String.string_of_list_byte output). intros out.
  cbv -[String.append]. string_normal. reflexivity.
Qed.

(** ** The toolchain manager on a miss, the compiler invoker *)

Section Install.
Context {W : Type} (X : Collaborators W).

(** X9.  The binary is absent and the version directory cannot be created:
    [ensureGo] returns [failed to crate <directory> <cause>] and stops -- no
    fetch is attempted, nothing further is logged.  The error of the
    existence check, if any, is ignored. *)
Theorem ensureGo_mkdir_failure_skips_fetch
    (s : Service) (snapshot : Snapshot) (version : string) (spec : build.Build)
    (st : State W) (cause : error) (w' : W) :
  let verLocation := path_Join _ X [GoDir snapshot; "go" +:+ version] in
  let bin := path_Join _ X [verLocation; "go"] in
  (fs_Exists _ X (world st) bin).1 = false ->
  os_MkdirAll _ X (world st) verLocation (defaultDirPermission _ X) = (Some cause, w') ->
  ensureGo X s snapshot version (Logf spec) st
  = (Some ("failed to crate " +:+ verLocation +:+ " " +:+ cause),
     {| world := w';
        trace := trace st ++
                 [EvExists bin;
                  EvLogf ("checking binary[%v]: %v" +:+ nl) ["false"; verLocation];
                  EvMkdirAll verLocation (defaultDirPermission _ X)] |}).
Proof.
  intros verLocation bin Habsent Hmkdir.
  unfold ensureGo, Logf, bind, emit, ask, act, ret. cbv zeta. cbn [world trace].
  fold verLocation. fold bin.
  destruct (fs_Exists W X (world st) bin) as [ok ?]. simpl in Habsent. subst ok.
  cbn [world trace showBool]. rewrite Hmkdir. cbn [world trace].
  rewrite <- !List.app_assoc. f_equal. f_equal.
  generalize verLocation. intros dir.
  cbv -[String.append]. string_normal. reflexivity.
Qed.

(** X10.  The binary is absent and the version directory is created: the
    archive is fetched from
    [https:dl.google.com/go/go<version>.<os>-<arch>.tar.gz/tar://], with the
    OS and architecture of the host, into the version directory, and the
    outcome of that copy is returned as it is; a failure is logged, not
    wrapped. *)
Theorem ensureGo_miss_fetches_release_archive
    (s : Service) (snapshot : Snapshot) (version : string) (spec : build.Build)
    (st : State W) (w1 : W) :
  let verLocation := path_Join _ X [GoDir snapshot; "go" +:+ version] in
  let bin := path_Join _ X [verLocation; "go"] in
  let os := build.Os (Runtime (cfg s)) in
  let arch := build.Arch (Runtime (cfg s)) in
  let copy := fs_Copy _ X w1 (downloadURL version os arch) verLocation in
  (fs_Exists _ X (world st) bin).1 = false ->
  os_MkdirAll _ X (world st) verLocation (defaultDirPermission _ X) = (None, w1) ->
  ensureGo X s snapshot version (Logf spec) st
  = (copy.1,
     {| world := copy.2;
        trace := trace st ++
                 [EvExists bin;
                  EvLogf ("checking binary[%v]: %v" +:+ nl) ["false"; verLocation];
                  EvMkdirAll verLocation (defaultDirPermission _ X);
                  EvLogf ("installing go %v %v %v" +:+ nl) [version; os; arch];
                  EvCopy (downloadURL version os arch) verLocation] ++
                 match copy.1 with
                 | Some e => [EvLogf ("failed to install go %v" +:+ nl) [e]]
                 | None => []
                 end |}).
Proof.
  intros verLocation bin os arch copy Habsent Hmkdir.
  unfold ensureGo, Logf, bind, emit, ask, act, ret. cbv zeta. cbn [world trace].
  fold verLocation. fold bin. fold os. fold arch.
  destruct (fs_Exists W X (world st) bin) as [ok ?]. simpl in Habsent. subst ok.
  cbn [world trace showBool]. rewrite Hmkdir. cbn [world trace].
  rewrite (fetch_address version os arch). fold copy.
  destruct copy as [[e|] w2]; cbn [fst snd world trace]; by rewrite <- !List.app_assoc.
Qed.

(** X11.  [Service.build] runs the compiler exactly once, in the snapshot's
    build directory, under the path the command name resolved to, with the
    arguments of the snapshot and the environment of [appendEnv].  It returns
    nil exactly when the compiler succeeded; when the compiler fails the error
    returned is the diagnostic naming the cause, the directory, the command
    line and the captured output, and the logging sink is handed the same
    template and operands. *)
Theorem build_runs_compiler_once_and_reports
    (snapshot : Snapshot) (buildSpec : build.Build) (st : State W) :
  let command :=
    {| Path := exec_LookPath _ X (world st) (Snapshot_buildCmdArgs _ X snapshot buildSpec).1;
       Args := (Snapshot_buildCmdArgs _ X snapshot buildSpec).2;
       Dir := PluginBuildPath snapshot;
       CmdEnv := appendEnv X (build.Env (build.Go buildSpec)) (Snapshot_Env _ X snapshot) |} in
  let ran := exec_CombinedOutput _ X (world st) command in
  let template :=
    "couldn't generate plugin due to the: %w at: %s" +:+ nl +:+ tab +:+
    "stdin: %s" +:+ nl +:+ tab +:+ "stdount: %s" in
  let operands cause :=
    [cause; PluginBuildPath snapshot; Cmd_String command;
     String.string_of_list_byte ran.1.1] in
  let diagnostic cause :=
    compileFailure cause (PluginBuildPath snapshot) (Cmd_String command) ran.1.1 in
  let out := build X snapshot buildSpec st in
  out.1 = diagnostic <$> ran.1.2
  ∧ (out.1 = None ↔ ran.1.2 = None)
  ∧ world out.2 = ran.2
  ∧ trace out.2
    = (trace st ++
       EvLogf "building plugin at %v: %v" [PluginBuildPath snapshot; Cmd_String command]
       :: EvCommand command
       :: match ran.1.2 with
          | Some cause => [EvLogf template (operands cause)]
          | None => []
          end)%list.
Proof.
  intros command ran template operands diagnostic out. unfold out, build.
  destruct (Snapshot_buildCmdArgs W X snapshot buildSpec) as [cmd args] eqn:Hargs.
  cbv zeta. unfold Logf, bind, emit, ask, act, ret. cbn [world trace].
  change {| Path := exec_LookPath W X (world st) cmd; Args := args;
            Dir := PluginBuildPath snapshot;
            CmdEnv := appendEnv X (build.Env (build.Go buildSpec))
                        (Snapshot_Env W X snapshot) |} with command.
  fold ran. unfold diagnostic, operands, template.
  destruct ran as [[output [cause|]] w']; cbn [fst snd world trace Dir].
  - rewrite compile_failure_text. split; [done |]. split; [done |]. split; [done |].
    by rewrite <- !List.app_assoc.
  - split; [done |]. split; [done |]. split; [done |].
    by rewrite <- !List.app_assoc.
Qed.

End Install.

(** ** The per-file callback, for every file *)

Section Callback.
Context {W : Type} (X : Collaborators W).

Lemma HasPrefix_spec (s p : bytes) :
  HasPrefix s p = true ↔ ∃ post, s = (p ++ post)%list.
Proof.
  revert s. induction p as [| b p IH]; intros s.
  - split; [intros _; by exists s | by destruct s].
  - destruct s as [| c s]; simpl; [split; [done | by intros (post & ?)] |].
    rewrite andb_true_iff, IH. split.
    + intros [Hb (post & ->)]. apply Byte.byte_dec_bl in Hb as ->. by exists post.
    + intros (post & [= -> ->]). split; [by apply Byte.byte_dec_lb | by exists post].
Qed.

(** [bytes.Contains]: the run may stand anywhere *)
Lemma Contains_spec (b sub : bytes) :
  Contains b sub = true ↔ ∃ pre post, b = (pre ++ sub ++ post)%list.
Proof.
  induction b as [| c b IH]; cbn [Contains].
  - rewrite orb_false_r. destruct sub as [| x sub]; simpl.
    + split; [intros _; by exists [], [] | done].
    + split; [done |]. intros (pre & post & Heq). by destruct pre.
  - rewrite orb_true_iff, HasPrefix_spec, IH. split.
    + intros [(post & ->) | (pre & post & ->)].
      * by exists [], post.
      * by exists (c :: pre), post.
    + intros (pre & post & Heq). destruct pre as [| c' pre]; simpl in Heq.
      * left. by exists post.
      * right. injection Heq as -> ->. by exists pre, post.
Qed.

(** X12.  Whenever [processSource] returns an error the snapshot is the one it
    was given: either the read failed -- the reader's error is returned,
    nothing was called and the reader is handed back unclosed -- or the
    rewrite failed -- its error is returned and the reader handed back is
    closed.  No entry point is recorded in either case, and the file info is
    returned as given. *)
Theorem processSource_failure_leaves_snapshot
    (reader : Reader) (parent : string) (fi : FileInfo) (snapshot : Snapshot)
    (replace : bool) (st : State W) (cause : error) :
  let out := processSource X reader parent fi snapshot replace st in
  out.1.2.2 = Some cause ->
  out.1.1 = snapshot
  ∧ out.1.2.1.1 = fi
  ∧ world out.2 = world st
  ∧ ((failure reader = Some cause ∧ trace out.2 = trace st
      ∧ closed out.1.2.1.2 = closed reader)
     ∨ (failure reader = None ∧ replace = true
        ∧ (Snapshot_replaceDependencies _ X snapshot (pending reader)).2 = Some cause
        ∧ trace out.2 = (trace st ++ [EvReplaceDependencies (pending reader)])%list
        ∧ closed out.1.2.1.2 = true)).
Proof.
  intros out. unfold out.
  destruct (failure reader) as [e|] eqn:Hread.
  - unfold processSource, ReadAll. rewrite Hread. unfold ret. cbn [fst snd].
    intros [= ->]. repeat split; try done. left. done.
  - destruct replace.
    + rewrite (processSource_rewrite X _ _ _ _ _ Hread).
      destruct (Snapshot_replaceDependencies W X snapshot (pending reader))
        as [rewritten [e|]]; cbn [fst snd world trace]; [| done].
      intros [= ->]. repeat split; try done. right. done.
    + rewrite (processSource_scan X _ _ _ _ _ Hread). done.
Qed.

(** X13.  For every file, in every mode and whatever the outcome, the callback
    returns the file info it was given -- name and size as they were, also
    when the content was rewritten.  A file that is not a source file keeps
    its reader; a source file processed without error is handed back as a
    fresh in-memory reader over the bytes that were scanned: the bytes read,
    or in plugin mode the bytes [replaceDependencies] returned. *)
Theorem onFile_returns_given_info_and_scanned_bytes
    (s : Service) (buildMode parent : string) (fi : FileInfo) (reader : Reader)
    (snapshot : Snapshot) (st : State W) :
  let out := onFile X s buildMode parent fi reader snapshot st in
  let scanned :=
    if bool_decide (buildMode = "plugin")
    then (Snapshot_replaceDependencies _ X snapshot (pending reader)).1
    else pending reader in
  out.1.2.1.1 = fi
  ∧ (¬ sourceExt (FileName fi) -> out.1.2.1.2 = reader ∧ out.1.2.2 = None)
  ∧ (sourceExt (FileName fi) -> out.1.2.2 = None ->
     failure reader = None ∧ out.1.2.1.2 = NewReader scanned)
  ∧ (sourceExt (FileName fi) -> failure reader ≠ None -> out.1.2.2 = failure reader).
Proof.
  intros out scanned. unfold out, scanned, onFile. cbv zeta.
  fold (sourceExt (FileName fi)).
  destruct (decide (sourceExt (FileName fi))) as [Hext | Hext].
  - rewrite (bool_decide_eq_true_2 _ Hext).
    unfold processSource, ReadAll, bind, emit, ret.
    destruct (failure reader) as [e|]; cbn [fst snd world trace].
    { split; [done |]. split; [done |]. split; [by intros _ ? | done]. }
    destruct (bool_decide (buildMode = "plugin")); cbn [fst snd world trace].
    + destruct (Snapshot_replaceDependencies W X snapshot (pending reader))
        as [rewritten [e|]]; cbn [fst snd world trace];
        (split; [done |]); (split; [done |]); (split; [by intros _ ? | by intros _ ?]).
    + split; [done |]. split; [done |]. split; [by intros _ _ | by intros _ ?].
  - rewrite (bool_decide_eq_false_2 _ Hext). unfold ret. cbn [fst snd].
    split; [done |]. split; [done |]. split; by intros ?.
Qed.

(** X14.  The entry-point test is a plain substring test on the content as
    staged: after [processSource] of a file that was read (and rewritten
    without error, where rewriting applies), the file's path is an entry
    point exactly if it was one already or the bytes [package main] occur
    somewhere in the content -- at any position, whatever precedes or
    follows them. *)
Theorem processSource_marker_anywhere
    (reader : Reader) (parent : string) (fi : FileInfo) (snapshot : Snapshot)
    (replace : bool) (st : State W) :
  let rewritten :=
    if replace then Snapshot_replaceDependencies _ X snapshot (pending reader)
    else (pending reader, None) in
  let loc := path_Join _ X [parent; FileName fi] in
  let out := processSource X reader parent fi snapshot replace st in
  failure reader = None ->
  rewritten.2 = None ->
  loc ∈ Mains out.1.1
  ↔ loc ∈ Mains snapshot
    ∨ ∃ pre post, rewritten.1 = (pre ++ mainFragment ++ post)%list.
Proof.
  intros rewritten loc out Hread Hok. rewrite <- Contains_spec.
  assert (out.1.1 = if Contains rewritten.1 mainFragment then AppendMain loc snapshot
                    else snapshot) as ->.
  { unfold out, rewritten in *. destruct replace.
    - rewrite (processSource_rewrite X _ _ _ _ _ Hread).
      by destruct (Snapshot_replaceDependencies W X snapshot (pending reader))
        as [bs [e|]].
    - by rewrite (processSource_scan X _ _ _ _ _ Hread). }
  destruct (Contains rewritten.1 mainFragment); simpl.
  - split; [by right |]. intros _. set_solver.
  - split; [by left |]. by intros [? | ?].
Qed.

End Callback.

(** ** Which files are source files *)

Lemma list_ascii_of_append (a b : string) :
  String.list_ascii_of_string (a +:+ b)
  = (String.list_ascii_of_string a ++ String.list_ascii_of_string b)%list.
Proof.
  induction a as [| c a IH]; [done |].
  change (c :: String.list_ascii_of_string (a +:+ b)
          = c :: (String.list_ascii_of_string a ++ String.list_ascii_of_string b)%list).
  by rewrite IH.
Qed.

Lemma string_of_snoc (l : list ascii) (c : ascii) (acc : string) :
  String.string_of_list_ascii (l ++ [c]) +:+ acc
  = String.string_of_list_ascii l +:+ String c acc.
Proof.
  induction l as [| x l IH]; [done |].
  change (String x (String.string_of_list_ascii (l ++ [c]) +:+ acc)
          = String x (String.string_of_list_ascii l +:+ String c acc)).
  by rewrite IH.
Qed.

Lemma extFrom_plain (l rest : list ascii) (acc : string) :
  Forall (fun c => Ascii.eqb c "." = false ∧ Ascii.eqb c "/" = false) l ->
  extFrom (l ++ "."%char :: rest) acc
  = String "." (String.string_of_list_ascii (rev l) +:+ acc).
Proof.
  intros Hplain. revert acc. induction Hplain as [| c l [Hdot Hslash] _ IH]; intros acc.
  - reflexivity.
  - cbn [app extFrom]. rewrite Hslash, Hdot, IH. cbn [rev]. by rewrite string_of_snoc.
Qed.

Lemma extFrom_dotless (l : list ascii) (acc : string) :
  Forall (fun c => Ascii.eqb c "." = false) l -> extFrom l acc = "".
Proof.
  intros Hplain. revert acc. induction Hplain as [| c l Hdot _ IH]; intros acc; [done |].
  cbn [extFrom]. rewrite Hdot. by destruct (Ascii.eqb c "/").
Qed.

Lemma plain_chars (s : string) :
  plain s = true ->
  Forall (fun c => Ascii.eqb c "." = false ∧ Ascii.eqb c "/" = false)
    (String.list_ascii_of_string s).
Proof.
  induction s as [| c s IH]; [constructor |]. cbn [plain String.list_ascii_of_string].
  intros [[Hdot Hslash]%andb_true_iff Hrest]%andb_true_iff.
  apply negb_true_iff in Hdot, Hslash. constructor; [done | by apply IH].
Qed.

Lemma dotless_chars (s : string) :
  dotless s = true ->
  Forall (fun c => Ascii.eqb c "." = false) (String.list_ascii_of_string s).
Proof.
  induction s as [| c s IH]; [constructor |]. cbn [dotless String.list_ascii_of_string].
  intros [Hdot Hrest]%andb_true_iff.
  apply negb_true_iff in Hdot. constructor; [done | by apply IH].
Qed.

(** [path.Ext] of [stem.suffix] *)
Lemma Ext_suffix (stem suffix : string) :
  plain suffix = true -> Ext (stem +:+ "." +:+ suffix) = "." +:+ suffix.
Proof.
  intros Hplain. unfold Ext.
  rewrite list_ascii_of_append.
  change (String.list_ascii_of_string ("." +:+ suffix))
    with ("."%char :: String.list_ascii_of_string suffix).
  rewrite rev_app_distr. cbn [rev]. rewrite <- List.app_assoc. cbn [app].
  rewrite extFrom_plain.
  - rewrite rev_involutive, String.string_of_list_ascii_of_string.
    by rewrite append_empty_r.
  - apply Forall_forall. intros c Hin. apply list_elem_of_In, in_rev in Hin.
    pose proof (plain_chars suffix Hplain) as Hall. rewrite Forall_forall in Hall.
    apply Hall. by apply list_elem_of_In.
Qed.

(** X15.  Which files the callback treats as source files is decided by the
    text after the last dot of the name: [stem.suffix], the suffix holding
    neither dot nor slash, is one exactly when the suffix is [go], [mod] or
    [sum], whatever the stem (so [go.mod], [x.tar.go] and [.go] are, and
    [main.go.bak] is not); a name without any dot never is. *)
Theorem sourceExt_decided_by_last_suffix (stem suffix name : string) :
  plain suffix = true ->
  dotless name = true ->
  (sourceExt (stem +:+ "." +:+ suffix) ↔ suffix ∈ ["go"; "mod"; "sum"])
  ∧ Ext name = ""
  ∧ ¬ sourceExt name.
Proof.
  intros Hplain Hdotless. split; [| split].
  - unfold sourceExt. rewrite (Ext_suffix stem suffix Hplain).
    change ("." +:+ suffix) with (String "." suffix).
    rewrite !elem_of_cons, !elem_of_nil. split.
    + intros [[= ->] | [[= ->] | [[= ->] | []]]]; auto.
    + intros [-> | [-> | [-> | []]]]; auto.
  - unfold Ext. apply extFrom_dotless.
    apply Forall_forall. intros c Hin. apply list_elem_of_In, in_rev in Hin.
    pose proof (dotless_chars name Hdotless) as Hall. rewrite Forall_forall in Hall.
    apply Hall. by apply list_elem_of_In.
  - unfold sourceExt, Ext. rewrite extFrom_dotless.
    + rewrite !elem_of_cons, elem_of_nil. by intros [? | [? | [? | []]]].
    + apply Forall_forall. intros c Hin. apply list_elem_of_In, in_rev in Hin.
      pose proof (dotless_chars name Hdotless) as Hall. rewrite Forall_forall in Hall.
      apply Hall. by apply list_elem_of_In.
Qed.

(** ** The entry point [pgo.Build] *)

Section EntryPoint.
Context {W : Type} (X : Collaborators W).

(** the builder itself never stores a module *)
Lemma Build_never_stores
    (s : Service) (buildSpec : build.Build) (opts : list build.Option) (w : W) :
  Forall (fun e => isStore e = false) (trace (run (Build X s buildSpec opts) w).2).
Proof.
  set (spec0 := initialised X buildSpec opts).
  destruct (Build_paths X s buildSpec opts) as [[invalid Hrun] | [Hrun | [Hsame Hflag]]].
  - rewrite Hrun. constructor.
  - rewrite Hrun. unfold run.
    destruct (delegateBuildOrFail_calls X s spec0
                (build.ValidateOsAndArch (Runtime (cfg s)) (build.GoRuntime (build.Go spec0)))
                {| world := w; trace := [] |})
      as (evs & E & _ & _ & _ & _ & Hkind).
    fold spec0. rewrite E. cbn [trace app].
    eapply Forall_impl; [exact Hkind |].
    intros e [He | (t & a & ->)]; [by destruct e | done].
  - pose proof (Build_local_phases X s buildSpec opts w Hsame Hflag) as Hstages.
    revert Hstages. apply phased_Forall. repeat constructor.
    + intros ? [-> | ->]; by repeat constructor.
    + intros ? [-> | (? & ? & ? & ->)]; by repeat constructor.
    + intros ? (Hkind & _). eapply Forall_impl; [exact Hkind |]. by intros [].
    + intros ? Hkind. eapply Forall_impl; [exact Hkind |]. by intros [].
    + intros ? (Hkind & _). eapply Forall_impl; [exact Hkind |]. by intros [].
    + intros ? [-> | (? & ->)]; by repeat constructor.
Qed.

(** X16.  [pgo.Build] with valid options builds with a builder made from an
    empty configuration and the linux/amd64 hook, and stores at most once: an
    error of the builder is returned as it is and nothing is stored;
    otherwise what the builder returned is stored at the destination of the
    options, as the last call, and the outcome of that store is the
    result. *)
Theorem pgo_Build_stores_after_success_only
    (P : pgo.Collaborators W) (o : pgo.Options) (opts : list build.Option) (w : W) :
  let o' := pgo.Options_Init _ P o in
  let aBuilder :=
    New X {| Runtime := {| build.Os := ""; build.Arch := ""; build.Version := "" |};
             delegations := [] |} [pgo.WithLinuxAmd64 _ P] in
  let inner := run (Build X aBuilder (pgo.Options_buildSpec _ P o') opts) w in
  let stored := pgo.Module_Store _ P (world inner.2) inner.1.2.1 (pgo.DestURL o') in
  let out := run (pgo.Build X P o opts) w in
  pgo.Options_Validate _ P o' = None ->
  out = match inner.1.2.2 with
        | Some err => (Some err, inner.2)
        | None =>
            (stored.1,
             {| world := stored.2;
                trace := trace inner.2 ++ [EvStore inner.1.2.1 (pgo.DestURL o')] |})
        end
  ∧ (count isStore (trace out.2) ≤ 1)%nat
  ∧ (count isStore (trace out.2) = 1 ↔ inner.1.2.2 = None).
Proof.
  intros o' aBuilder inner stored out Hvalid.
  assert (out = match inner.1.2.2 with
                | Some err => (Some err, inner.2)
                | None =>
                    (stored.1,
                     {| world := stored.2;
                        trace := trace inner.2 ++ [EvStore inner.1.2.1 (pgo.DestURL o')] |})
                end) as Hout.
  { unfold out, run, pgo.Build. fold o'. rewrite Hvalid. fold aBuilder.
    unfold bind at 1.
    change (Build X aBuilder (pgo.Options_buildSpec W P o') opts {| world := w; trace := [] |})
      with inner.
    unfold stored. destruct inner as [[spec1 [plugin [err|]]] st1]; cbn [fst snd]; [done |].
    unfold bind, emit, act. cbn [world trace].
    by destruct (pgo.Module_Store W P (world st1) plugin (pgo.DestURL o')). }
  split; [exact Hout |].
  assert (count isStore (trace inner.2) = 0) as Hnone
    by (apply count_none, Build_never_stores).
  rewrite Hout. destruct (inner.1.2.2) as [err|]; cbn [snd trace].
  - rewrite Hnone. split; [lia |]. split; [lia | done].
  - rewrite count_app, Hnone.
    change (count isStore [EvStore inner.1.2.1 (pgo.DestURL o')]) with 1.
    split; [lia | done].
Qed.

End EntryPoint.

(** ** A module is the product of a compiler run *)

Section Provenance.
Context {W : Type} (X : Collaborators W).

Lemma yields_ret {A} (Q : A -> list Event -> Prop) (a : A) :
  Q a [] -> yields (W:=W) Q (ret a).
Proof. intros Ha st. exists []. split; [by rewrite app_nil_r | exact Ha]. Qed.

Lemma yields_bind {A B} (R : A -> list Event -> Prop) (Q : B -> list Event -> Prop)
    (m : M W A) (k : A -> M W B) :
  yields R m ->
  (∀ a evs1, R a evs1 -> yields (fun b evs2 => Q b (evs1 ++ evs2)%list) (k a)) ->
  yields Q (bind m k).
Proof.
  intros Hm Hk st. unfold bind.
  destruct (Hm st) as (evs1 & E1 & HR).
  destruct (m st) as [a st1]. simpl in E1, HR.
  destruct (Hk a evs1 HR st1) as (evs2 & E2 & HQ).
  exists (evs1 ++ evs2)%list. split; [by rewrite E2, E1, List.app_assoc | exact HQ].
Qed.

Lemma yields_segment {A} (S : list Event -> Prop) (m : M W A) :
  segment S m -> yields (fun _ evs => S evs) m.
Proof. intros Hm st. exact (Hm st). Qed.

Lemma tally_of_kind (q : Event -> bool) (evs : list Event) :
  (∀ e, q e = true -> isCommand e = false) ->
  (∀ e, q e = true -> isDownload e = false) ->
  Forall (fun e => q e = true) evs -> tally 0 0 evs.
Proof.
  intros Hc Hd Hq. split; eapply count_of_kind; eauto.
Qed.

Lemma pack_tally (spec0 : build.Build) :
  yields (fun x evs => tally 0 0 evs
                       ∧ build.Name x.1 = build.Name spec0 ∧ build.Go x.1 = build.Go spec0)
    (if decide (length (build.Data (build.BuildSource spec0)) = 0)
     then bind (emit (EvPack (build.BuildSource spec0)))
            (fun _ => bind (act (fun w => Source_Pack _ X w (build.BuildSource spec0)))
              (fun x => match x with
                        | (packed, err) => ret (build.setSource packed spec0, err)
                        end))
     else ret (spec0, None)).
Proof.
  intros st. destruct (decide _).
  - unfold bind, emit, act, ret. cbn [world trace].
    destruct (Source_Pack W X (world st) _) as [[packed err] w']. cbn [fst snd trace].
    eexists. split; [reflexivity |]. by repeat split.
  - exists []. split; [by rewrite app_nil_r |]. by repeat split.
Qed.

Lemma build_tally (snapshot : Snapshot) (buildSpec : build.Build) :
  segment (tally 1 0) (build X snapshot buildSpec).
Proof.
  apply segment_and; [apply build_one_command |].
  eapply segment_impl; [| apply segment_emits, build_footprint].
  intros evs Hkind. eapply count_of_kind; [| exact Hkind]. by intros [].
Qed.

(** lines 42-82, with what is returned set against what was called *)
Lemma Build_tail_tally (s : Service) (spec1 : build.Build) :
  yields (fun r evs => ∀ m, r.2.1 = Some m ->
                         tally 1 1 evs ∧ r.2.2 = None
                         ∧ ∃ URL, last evs = Some (EvDownload URL))
    (let '(buildMode, spec) := Build_GetModeWithSpec _ X spec1 in
     let* _ := emit (EvNewSnapshot buildMode spec (build.Go spec1)) in
     let* snapshot := ask (fun w => NewSnapshot _ X w buildMode spec (build.Go spec1)) in
     let* err := ensureGo X s snapshot (build.Version (build.GoRuntime (build.Go spec1)))
                   (Logf spec1) in
     match err with
     | Some err => ret (spec1, (None, Some err))
     | None =>
     let* '(snapshot, err) :=
       Source_Unpack X (build.BuildSource spec1) (Snapshot_BasePluginURL _ X snapshot)
         AppendMod (onFile X s buildMode) snapshot in
     match err with
     | Some err => ret (spec1, (None, Some err))
     | None =>
     let* err := build X snapshot spec1 in
     match err with
     | Some err => ret (spec1, (None, Some err))
     | None =>
     let* _ := emit (EvDownload (PluginDestPath snapshot)) in
     let* '(data, err) := ask (fun w => fs_DownloadWithURL _ X w (PluginDestPath snapshot)) in
     match err with
     | Some err => ret (spec1, (None, Some (Sprintf "failed to locate plugin: %v" [err])))
     | None =>
         let res :=
           {| build.Mode := Snapshot_buildMode snapshot;
              build.ModuleData := data;
              build.ModuleInfo :=
                {| build.Scn := AsScn _ X (Created snapshot);
                   build.InfoRuntime := build.GoRuntime (build.Go spec1);
                   build.InfoName := build.Name spec1 |} |} in
         ret (spec1, (Some res, None))
     end end end end).
Proof.
  destruct (Build_GetModeWithSpec W X spec1) as [buildMode spec].
  apply (yields_bind (fun _ evs => tally 0 0 evs)).
  { apply yields_segment. eapply segment_impl; [| apply segment_emit]. by intros evs ->. }
  intros _ e1 [Hc1 Hd1].
  apply (yields_bind (fun _ evs => evs = [])); [apply yields_segment, segment_ask |].
  intros snapshot ? ->.
  apply (yields_bind (fun _ evs => tally 0 0 evs)).
  { apply yields_segment. eapply segment_impl; [| apply segment_emits, ensureGo_footprint].
    intros evs. apply tally_of_kind; by intros []. }
  intros [err|] e2 [Hc2 Hd2]; [by apply yields_ret |].
  apply (yields_bind (fun _ evs => tally 0 0 evs)).
  { apply yields_segment. eapply segment_impl; [| apply segment_emits, Source_Unpack_footprint].
    intros evs. apply tally_of_kind; by intros []. }
  intros [snapshot' [err|]] e3 [Hc3 Hd3]; [by apply yields_ret |].
  apply (yields_bind (fun _ evs => tally 1 0 evs)); [apply yields_segment, build_tally |].
  intros [err|] e4 [Hc4 Hd4]; [by apply yields_ret |].
  apply (yields_bind (fun _ evs => evs = [EvDownload (PluginDestPath snapshot')]));
    [apply yields_segment, segment_emit |].
  intros _ ? ->.
  apply (yields_bind (fun _ evs => evs = [])); [apply yields_segment, segment_ask |].
  intros [data [err|]] ? ->; apply yields_ret; [done |].
  intros m _. rewrite !app_nil_r. split; [| split; [done |]].
  - unfold tally. rewrite !count_app, Hc1, Hc2, Hc3, Hc4, Hd1, Hd2, Hd3, Hd4. by split.
  - exists (PluginDestPath snapshot'). rewrite !List.app_assoc. apply last_snoc.
Qed.

(** X18.  On the local path a module is returned only as the product of the
    whole pipeline: whenever [Build] returns a module, the error is nil, the
    compiler was run exactly once, the artifact was downloaded exactly once,
    and that download is the last call made. *)
Theorem Build_local_module_is_compiled_and_downloaded
    (s : Service) (buildSpec : build.Build) (opts : list build.Option) (w : W) (m : build.Module_) :
  let spec0 := initialised X buildSpec opts in
  let out := run (Build X s buildSpec opts) w in
  sameRuntime (Runtime (cfg s)) (build.GoRuntime (build.Go spec0)) ->
  build.EnsureTheSameOs (build.Go spec0) = false ->
  out.1.2.1 = Some m ->
  out.1.2.2 = None
  ∧ count isCommand (trace out.2) = 1
  ∧ count isDownload (trace out.2) = 1
  ∧ ∃ URL, last (trace out.2) = Some (EvDownload URL).
Proof.
  intros spec0 out Hsame Hflag.
  assert (yields (fun r evs => ∀ m, r.2.1 = Some m ->
                                 tally 1 1 evs ∧ r.2.2 = None
                                 ∧ ∃ URL, last evs = Some (EvDownload URL))
            (Build X s buildSpec opts)) as Hall.
  { destruct (Build_Validate W X spec0) as [invalid|] eqn:Hvalid.
    { rewrite (Build_invalid X s buildSpec opts invalid Hvalid). by apply yields_ret. }
    unfold Build. fold (initialised X buildSpec opts). fold spec0.
    rewrite Hvalid, (ValidateOsAndArch_same _ _ Hsame), Hflag.
    rewrite bool_decide_eq_false_2 by (intros Hne; by apply Hne).
    cbn [orb].
    eapply yields_bind; [apply pack_tally |].
    intros [spec1 [err|]] e0 ([Hc0 Hd0] & _); [by apply yields_ret |].
    intros st. destruct (Build_tail_tally s spec1 st) as (evs & E & Hevs).
    exists evs. split; [exact E |].
    intros m' Hm'. destruct (Hevs m' Hm') as ([Hc Hd] & Hnil & URL & Hlast).
    split; [| split; [done |]].
    - unfold tally. rewrite !count_app, Hc0, Hd0, Hc, Hd. by split.
    - exists URL. destruct evs as [| e evs]; [done |].
      rewrite last_app. by rewrite Hlast. }
  intros Hm. destruct (Hall {| world := w; trace := [] |}) as (evs & E & Hevs).
  fold (run (Build X s buildSpec opts) w) in E, Hevs. fold out in E, Hevs.
  destruct (Hevs m Hm) as ([Hc Hd] & Hnil & Hlast).
  rewrite E. cbn [trace app]. by repeat split.
Qed.

End Provenance.

(** ** The further properties on the concrete world *)

(** X1 at work: a linux/amd64 build on the linux/amd64 host. *)
Lemma X1_witness :
  let spec := Demo.spec Demo.linuxAmd64 false in
  let res := (run (Build Demo.X Demo.service spec []) Demo.fresh).1.2 in
  sameRuntime (Runtime (cfg Demo.service)) (build.GoRuntime (build.Go (initialised Demo.X spec [])))
  ∧ build.EnsureTheSameOs (build.Go (initialised Demo.X spec [])) = false
  ∧ ((∃ m, res = (Some m, None)) ∨ (∃ e, res = (None, Some e))).
Proof.
  intros spec res.
  split; [split; reflexivity |]. split; [reflexivity |].
  exact (Build_local_returns_module_or_error Demo.X Demo.service spec [] Demo.fresh
           (conj eq_refl eq_refl) eq_refl).
Defined.

(** X2 at work: the module of that build is named after the spec. *)
Lemma X2_witness :
  let spec := Demo.spec Demo.linuxAmd64 false in
  let out := (run (Build Demo.X Demo.service spec []) Demo.fresh).1 in
  sameRuntime (Runtime (cfg Demo.service)) (build.GoRuntime (build.Go (initialised Demo.X spec [])))
  ∧ build.EnsureTheSameOs (build.Go (initialised Demo.X spec [])) = false
  ∧ build.Name out.1 = "fee"
  ∧ build.Go out.1 = build.Go spec.
Proof.
  intros spec out.
  destruct (Build_local_module_carries_spec Demo.X Demo.service spec [] Demo.fresh
              (conj eq_refl eq_refl) eq_refl)
    as (Hname & Hgo & _).
  split; [split; reflexivity |]. split; [reflexivity |]. split; [exact Hname | exact Hgo].
Defined.

(** X3 at work: the stages of that build. *)
Lemma X3_witness :
  let spec := Demo.spec Demo.linuxAmd64 false in
  sameRuntime (Runtime (cfg Demo.service)) (build.GoRuntime (build.Go (initialised Demo.X spec [])))
  ∧ build.EnsureTheSameOs (build.Go (initialised Demo.X spec [])) = false
  ∧ phased (localStages (build.BuildSource (initialised Demo.X spec [])))
      (trace (run (Build Demo.X Demo.service spec []) Demo.fresh).2).
Proof.
  intros spec.
  split; [split; reflexivity |]. split; [reflexivity |].
  exact (Build_local_stages_in_order Demo.X Demo.service spec [] Demo.fresh
           (conj eq_refl eq_refl) eq_refl).
Defined.

(** X4 at work: a forced delegation to the darwin builder. *)
Lemma X4_witness :
  let spec := Demo.spec Demo.darwinArm64 true in
  Build_Validate _ Demo.X (initialised Demo.X spec []) = None
  ∧ build.EnsureTheSameOs (build.Go (initialised Demo.X spec [])) = true
  ∧ Forall (fun e => localCall e = false)
      (trace (run (Build Demo.X Demo.serviceWithMac spec []) Demo.fresh).2).
Proof.
  intros spec.
  split; [reflexivity |]. split; [reflexivity |].
  exact (Build_delegated_makes_no_local_call Demo.X Demo.serviceWithMac spec [] Demo.fresh
           eq_refl (or_intror eq_refl)).
Defined.

(** X7 at work: the darwin builder is up. *)
Lemma X7_witness :
  let spec := Demo.spec Demo.darwinArm64 true in
  let st := {| world := Demo.fresh; trace := [] |} in
  Match (delegations (cfg Demo.serviceWithMac)) (build.GoRuntime (build.Go spec))
    = Some Demo.macBuilder
  ∧ Client_IsUp _ Demo.X (world st) (baseURL Demo.macBuilder) = true
  ∧ (delegateBuildOrFail Demo.X Demo.serviceWithMac spec (Some "mismatch") st).1.2
    = (Some (Demo.remoteModule (Demo.spec Demo.darwinArm64 false)), None).
Proof.
  intros spec st.
  split; [reflexivity |]. split; [reflexivity |].
  by rewrite (delegateBuildOrFail_returns_remote_answer Demo.X Demo.serviceWithMac spec
                (Some "mismatch") Demo.macBuilder st eq_refl eq_refl).
Defined.

(** X8 at work: the darwin builder is down and docker cannot start it. *)
Lemma X8_witness :
  let spec := Demo.spec Demo.darwinArm64 false in
  let st := {| world := Demo.offline; trace := [] |} in
  Match (delegations (cfg Demo.serviceWithMac)) (build.GoRuntime (build.Go spec))
    = Some Demo.macBuilder
  ∧ Client_IsUp _ Demo.X (world st) (baseURL Demo.macBuilder) = false
  ∧ (delegateBuildOrFail Demo.X Demo.serviceWithMac spec (Some "mismatch") st).1.2
    = (None, Some "docker is not running").
Proof.
  intros spec st.
  split; [reflexivity |]. split; [reflexivity |].
  by rewrite (delegateBuildOrFail_brings_builder_up Demo.X Demo.serviceWithMac spec
                (Some "mismatch") Demo.macBuilder st eq_refl eq_refl).
Defined.

(** X9 at work: the toolchain cache is read-only. *)
Lemma X9_witness :
  let spec := Demo.spec Demo.linuxAmd64 false in
  let st := {| world := Demo.fresh; trace := [] |} in
  (fs_Exists _ Faulty.X (world st) "/opt/go/go1.17/go").1 = false
  ∧ os_MkdirAll _ Faulty.X (world st) "/opt/go/go1.17" (defaultDirPermission _ Faulty.X)
    = (Some "permission denied", Demo.fresh)
  ∧ (ensureGo Faulty.X Demo.service Demo.snapshot "1.17" (Logf spec) st).1
    = Some "failed to crate /opt/go/go1.17 permission denied".
Proof.
  intros spec st.
  split; [reflexivity |]. split; [reflexivity |].
  by rewrite (ensureGo_mkdir_failure_skips_fetch Faulty.X Demo.service Demo.snapshot "1.17"
                spec st "permission denied" Demo.fresh eq_refl eq_refl).
Defined.

(** X10 at work: a first install of go 1.17 on linux/amd64. *)
Lemma X10_witness :
  let spec := Demo.spec Demo.linuxAmd64 false in
  let st := {| world := Demo.fresh; trace := [] |} in
  let w1 := Demo.addFile "/opt/go/go1.17" Demo.fresh in
  (fs_Exists _ Demo.X (world st) "/opt/go/go1.17/go").1 = false
  ∧ os_MkdirAll _ Demo.X (world st) "/opt/go/go1.17" (defaultDirPermission _ Demo.X)
    = (None, w1)
  ∧ ensureGo Demo.X Demo.service Demo.snapshot "1.17" (Logf spec) st
    = (None,
       {| world := Demo.addFile "/opt/go/go1.17/go" w1;
          trace :=
            [EvExists "/opt/go/go1.17/go";
             EvLogf ("checking binary[%v]: %v" +:+ nl) ["false"; "/opt/go/go1.17"];
             EvMkdirAll "/opt/go/go1.17" (defaultDirPermission _ Demo.X);
             EvLogf ("installing go %v %v %v" +:+ nl) ["1.17"; "linux"; "amd64"];
             EvCopy "https:dl.google.com/go/go1.17.linux-amd64.tar.gz/tar://"
               "/opt/go/go1.17"] |}).
Proof.
  intros spec st w1.
  split; [reflexivity |]. split; [reflexivity |].
  by rewrite (ensureGo_miss_fetches_release_archive Demo.X Demo.service Demo.snapshot "1.17"
                spec st w1 eq_refl eq_refl).
Defined.

(** X12 at work: a stream that breaks in the middle of [package main]. *)
Lemma X12_witness :
  let st := {| world := Demo.fresh; trace := [] |} in
  let out := processSource Demo.X Faulty.tornReader "cmd" (info Demo.mainEntry)
               Demo.snapshot true st in
  out.1.2.2 = Some "unexpected EOF"
  ∧ out.1.1 = Demo.snapshot
  ∧ trace out.2 = [].
Proof.
  intros st out.
  destruct (processSource_failure_leaves_snapshot Demo.X Faulty.tornReader "cmd"
              (info Demo.mainEntry) Demo.snapshot true st "unexpected EOF" eq_refl)
    as (Hsnap & _ & _ & Hcase).
  split; [reflexivity |]. split; [exact Hsnap | reflexivity].
Defined.

(** X14 at work: [cmd/main.go], whose content begins with the marker. *)
Lemma X14_witness :
  let e := Demo.mainEntry in
  let st := {| world := Demo.fresh; trace := [] |} in
  let out := processSource Demo.X (content e) (parent e) (info e) Demo.snapshot false st in
  failure (content e) = None
  ∧ "cmd/main.go" ∈ Mains out.1.1.
Proof.
  intros e st out.
  split; [reflexivity |].
  apply (processSource_marker_anywhere Demo.X (content e) (parent e) (info e) Demo.snapshot
           false st eq_refl eq_refl).
  right. exists [], (String.list_byte_of_string "; func main() {}"). reflexivity.
Defined.

(** X15 at work: [go.mod] and [Makefile]. *)
Lemma X15_witness :
  plain "mod" = true
  ∧ dotless "Makefile" = true
  ∧ sourceExt "go.mod"
  ∧ ¬ sourceExt "Makefile".
Proof.
  destruct (sourceExt_decided_by_last_suffix "go" "mod" "Makefile" eq_refl eq_refl)
    as (Hiff & _ & Hnot).
  split; [reflexivity |]. split; [reflexivity |]. split; [| exact Hnot].
  apply Hiff. right. by left.
Defined.

(** X16 at work: a local build through the entry point, stored once. *)
Lemma X16_witness :
  let out := run (pgo.Build Demo.X Demo.P Demo.options []) Demo.fresh in
  pgo.Options_Validate _ Demo.P (pgo.Options_Init _ Demo.P Demo.options) = None
  ∧ (count isStore (trace out.2) ≤ 1)%nat.
Proof.
  intros out.
  destruct (pgo_Build_stores_after_success_only Demo.X Demo.P Demo.options [] Demo.fresh
              eq_refl)
    as (_ & Honce & _).
  split; [reflexivity | exact Honce].
Defined.

(** X18 at work: the module of the local build on the concrete host. *)
Lemma X18_witness :
  let spec := Demo.spec Demo.linuxAmd64 false in
  let out := run (Build Demo.X Demo.service spec []) Demo.fresh in
  let m := {| build.Mode := "plugin"; build.ModuleData := Demo.artifact;
              build.ModuleInfo := {| build.Scn := 7;
                                     build.InfoRuntime := Demo.linuxAmd64;
                                     build.InfoName := "fee" |} |} in
  sameRuntime (Runtime (cfg Demo.service)) (build.GoRuntime (build.Go (initialised Demo.X spec [])))
  ∧ build.EnsureTheSameOs (build.Go (initialised Demo.X spec [])) = false
  ∧ out.1.2.1 = Some m
  ∧ count isCommand (trace out.2) = 1
  ∧ last (trace out.2) = Some (EvDownload "/tmp/plugin/main.so").
Proof.
  intros spec out m.
  destruct (Build_local_module_is_compiled_and_downloaded Demo.X Demo.service spec []
              Demo.fresh m (conj eq_refl eq_refl) eq_refl eq_refl)
    as (_ & Hcommand & _ & _).
  split; [split; reflexivity |]. split; [reflexivity |]. split; [reflexivity |].
  split; [exact Hcommand | reflexivity].
Defined.
